(** * Cavity_Model_Demo: [helpers.py]

    A shallow embedding of the orchestration code of [helpers.py]
    (train/validation split, evaluation loop, training loop with early
    stopping, and the two stages of the ddG enrichment pipeline), together
    with the properties its specification states.

    Conventions of the embedding.
    - Python [str] is [string]; Python [list] is [list]; a [dict] is a
      [gmap]; an exception is a value of [pyexn] carried by [pyresult].
    - Where the result of the code depends on the rounding of binary64
      arithmetic (the split point [int(len * fraction)], the ddG
      statistic), a Python [float] is Rocq's primitive binary64 [float]
      and the operations are the IEEE 754 ones.
    - A float that is only compared or averaged (a loss, an accuracy) is a
      [pyfloat]: an exact rational, an infinity or NaN.  Comparisons
      follow IEEE 754 (every comparison with NaN is false); the sum of
      finite values is taken on the rationals.
    - The network, the optimiser and the loss function are opaque: what
      they return is a parameter of the functions that call them. *)

From Stdlib Require Import ZArith QArith Lia Ascii Floats Uint63.
From stdpp Require Import base gmap strings list pretty.

Local Open Scope Z_scope.
#[local] Set Warnings "-inexact-float".

(** ** Exceptions *)

Inductive pyexn := IndexError | KeyError | ValueError | OverflowError.

Inductive pyresult (A : Type) :=
| Ok (a : A)
| Raise (e : pyexn).
Arguments Ok {A} a.
Arguments Raise {A} e.

#[global] Instance pyresult_ret : MRet pyresult := fun A a => Ok a.

#[global] Instance pyresult_bind : MBind pyresult := fun A B k m =>
  match m with
  | Ok a => k a
  | Raise e => Raise e
  end.

#[global] Instance pyresult_fmap : FMap pyresult := fun A B f m =>
  match m with
  | Ok a => Ok (f a)
  | Raise e => Raise e
  end.

(** [mapM], the shape of a loop that builds a list and stops at the first
    exception. *)
Fixpoint traverse {A B} (f : A -> pyresult B) (l : list A) : pyresult (list B) :=
  match l with
  | [] => Ok []
  | a :: l' => b ← f a; bs ← traverse f l'; Ok (b :: bs)
  end.

(** ** Floats *)

Inductive pyfloat :=
| NaN
| NInf
| Fin (q : Q)
| PInf.

Definition Qltb (x y : Q) : bool := negb (Qle_bool y x).

(** [a < b] on floats. *)
Definition flt (a b : pyfloat) : bool :=
  match a, b with
  | NaN, _ | _, NaN => false
  | NInf, NInf => false
  | NInf, _ => true
  | Fin _, NInf => false
  | Fin x, Fin y => Qltb x y
  | Fin _, PInf => true
  | PInf, _ => false
  end.

(** [a <= b] on floats. *)
Definition fle (a b : pyfloat) : bool :=
  match a, b with
  | NaN, _ | _, NaN => false
  | NInf, _ => true
  | Fin _, NInf => false
  | Fin x, Fin y => Qle_bool x y
  | Fin _, PInf => true
  | PInf, PInf => true
  | PInf, _ => false
  end.

Definition is_nan (a : pyfloat) : bool :=
  match a with NaN => true | _ => false end.

(** [a + b] on floats. *)
Definition fadd (a b : pyfloat) : pyfloat :=
  match a, b with
  | NaN, _ | _, NaN => NaN
  | NInf, PInf | PInf, NInf => NaN
  | NInf, _ | _, NInf => NInf
  | PInf, _ | _, PInf => PInf
  | Fin x, Fin y => Fin (x + y)
  end.

(** [a / n] for a positive count [n]. *)
Definition fdiv_pos (a : pyfloat) (n : positive) : pyfloat :=
  match a with
  | Fin x => Fin (x / inject_Z (Z.pos n))
  | other => other
  end.

(** [np.mean] of a list of floats: NaN on the empty list. *)
Definition np_mean (l : list pyfloat) : pyfloat :=
  match l with
  | [] => NaN
  | _ :: _ => fdiv_pos (foldl fadd (Fin 0) l) (Pos.of_nat (length l))
  end.

(** Two floats denote the same value (the same rational, the same infinity,
    or both NaN). *)
Definition same_float (a b : pyfloat) : Prop :=
  match a, b with
  | NaN, NaN | NInf, NInf | PInf, PInf => True
  | Fin x, Fin y => x == y
  | _, _ => False
  end.

(** ** Binary64 *)

(** [float(n)] for the length of a list (exact below 2^53). *)
Definition float_of_len (n : nat) : float :=
  PrimFloat.of_uint63 (Uint63.of_Z (Z.of_nat n)).

(** [int(a)] for a binary64 [a]: truncation toward zero; NaN raises
    [ValueError] and an infinity [OverflowError]. *)
Definition py_int (a : float) : pyresult Z :=
  match Prim2SF a with
  | S754_zero _ => Ok 0
  | S754_nan => Raise ValueError
  | S754_infinity _ => Raise OverflowError
  | S754_finite negative m e =>
      let magnitude :=
        if 0 <=? e then Z.pos m * 2 ^ e else Z.pos m / 2 ^ (- e) in
      Ok (if negative then - magnitude else magnitude)
  end.

(** [np.mean] of an array of booleans: the fraction of [True] entries, NaN
    on the empty array. *)
Definition np_mean_bool (l : list bool) : pyfloat :=
  match l with
  | [] => NaN
  | _ :: _ => Fin (Z.of_nat (length (filter (fun b => b = true) l))
                   # Pos.of_nat (length l))
  end.

(** ** Sequences: indexing and slicing *)

(** The bound of a slice after CPython's adjustment: a negative bound counts
    from the end, and the result is clamped to [[0, len]]. *)
Definition slice_bound (len i : Z) : Z :=
  let i' := if i <? 0 then i + len else i in
  if i' <? 0 then 0 else if len <? i' then len else i'.

(** [l[start:stop]] *)
Definition py_slice {A} (l : list A) (start stop : Z) : list A :=
  let len := Z.of_nat (length l) in
  let lo := slice_bound len start in
  let hi := slice_bound len stop in
  take (Z.to_nat (hi - lo)) (drop (Z.to_nat lo) l).

(** [l[:stop]] *)
Definition py_slice_to {A} (l : list A) (stop : Z) : list A :=
  py_slice l 0 stop.

(** [l[start:]] *)
Definition py_slice_from {A} (l : list A) (start : Z) : list A :=
  py_slice l start (Z.of_nat (length l)).

Fixpoint chars (s : string) : list ascii :=
  match s with
  | EmptyString => []
  | String c s' => c :: chars s'
  end.

Fixpoint of_chars (l : list ascii) : string :=
  match l with
  | [] => EmptyString
  | c :: l' => String c (of_chars l')
  end.

(** [s[start:stop]] on a string. *)
Definition str_slice (s : string) (start stop : Z) : string :=
  of_chars (py_slice (chars s) start stop).

(** [s[0]]: raises on the empty string. *)
Definition str_first (s : string) : pyresult ascii :=
  match s with
  | EmptyString => Raise IndexError
  | String c _ => Ok c
  end.

(** [s[-1]]: raises on the empty string. *)
Definition str_last (s : string) : pyresult ascii :=
  match last (chars s) with
  | None => Raise IndexError
  | Some c => Ok c
  end.

Fixpoint startswith (s p : string) : bool :=
  match p, s with
  | EmptyString, _ => true
  | String _ _, EmptyString => false
  | String a p', String b s' => if decide (a = b) then startswith s' p' else false
  end.

(** [needle in hay]: substring containment. *)
Fixpoint str_in (needle hay : string) : bool :=
  startswith hay needle ||
  match hay with
  | EmptyString => false
  | String _ hay' => str_in needle hay'
  end.

(** The specification's reading of containment: the needle occurs somewhere
    inside the other string. *)
Definition occurs_in (needle hay : string) : Prop :=
  exists pre post, hay = pre +:+ needle +:+ post.

(** ** Data loaders *)

(** The batches a [torch.utils.data.DataLoader] without shuffling yields:
    consecutive groups of [batch_size] items, the shorter last group kept
    only when [drop_last] is false. *)
Definition DataLoader {A} (dataset : list A) (batch_size : nat)
    (drop_last : bool) : pyresult (list (list A)) :=
  if decide (batch_size = 0%nat) then Raise ValueError
  else
    let n_full := (length dataset / batch_size)%nat in
    let full :=
      (fun i => take batch_size (drop (i * batch_size) dataset)) <$> seq 0 n_full in
    match drop (n_full * batch_size) dataset with
    | [] => Ok full
    | rest => Ok (if drop_last then full else full ++ [rest])
    end.

(** What the construction of a shuffling [DataLoader] checks: the random
    sampler refuses a data set without samples, the batch sampler a batch
    size that is not positive. *)
Definition shuffled_loader_check {A} (dataset : list A) (batch_size : nat)
    : pyresult unit :=
  if decide (batch_size = 0%nat) then Raise ValueError
  else match dataset with
       | [] => Raise ValueError
       | _ :: _ => Ok ()
       end.

(** ** Train/validation split *)

(** What [_train_val_split] builds: the two groups of file names, their
    data sets, and the batches of the validation loader.  (The batches of
    the train loader are those of a random permutation of [dataset_train];
    no property below depends on them.) *)
Record split_result (sample : Type) := SplitResult {
  filenames_train : list string;
  filenames_val : list string;
  dataset_train : list sample;
  dataset_val : list sample;
  dataloader_val : list (list sample)
}.
Arguments SplitResult {sample}.
Arguments filenames_train {sample}.
Arguments filenames_val {sample}.
Arguments dataset_train {sample}.
Arguments dataset_val {sample}.
Arguments dataloader_val {sample}.

Section TrainValSplit.
Context {sample : Type}.
(** The residue environments stored in a parsed structure file. *)
Variable environments : string -> list sample.

(** Modelled from the spec: [ResidueEnvironmentsDataset] is defined in
    [cavity_model], not under src/; built from file names it holds the
    environments of the files, file after file. *)
Definition ResidueEnvironmentsDataset (filenames : list string) : list sample :=
  concat (environments <$> filenames).

Definition _train_val_split (parsed_pdb_filenames : list string)
    (TRAIN_VAL_SPLIT : float) (BATCH_SIZE : nat) : pyresult (split_result sample) :=
  n_train_pdbs ←
    py_int (PrimFloat.mul (float_of_len (length parsed_pdb_filenames)) TRAIN_VAL_SPLIT);
  let filenames_train := py_slice_to parsed_pdb_filenames n_train_pdbs in
  let filenames_val := py_slice_from parsed_pdb_filenames n_train_pdbs in
  let dataset_train := ResidueEnvironmentsDataset filenames_train in
  let dataset_val := ResidueEnvironmentsDataset filenames_val in
  _ ← shuffled_loader_check dataset_train BATCH_SIZE;
  dataloader_val ← DataLoader dataset_val BATCH_SIZE true;
  Ok (SplitResult filenames_train filenames_val dataset_train dataset_val
                  dataloader_val).
End TrainValSplit.

(** ** Evaluation loop *)

(** [np.reshape(arrays, -1)] on a list of one-dimensional arrays: the
    arrays one after the other when they all have the same length; a ragged
    list raises. *)
Definition np_reshape_flat {A} (arrays : list (list A)) : pyresult (list A) :=
  match arrays with
  | [] => Ok []
  | a :: rest =>
      if forallb (fun b => (length b =? length a)%nat) rest
      then Ok (concat arrays)
      else Raise ValueError
  end.

Section EvalLoop.
(** A sample of the validation set, the class its one-hot label encodes
    ([argmax] of [batch_y]), the class the network predicts for it in
    evaluation mode ([argmax] of the network's output) and the loss of a
    batch. *)
Context {sample : Type}.
Variable label_true : sample -> nat.
Variable label_pred : sample -> nat.
Variable loss_function : list sample -> pyfloat.

Definition _eval_loop (dataloader_val : list (list sample))
    : pyresult (pyfloat * pyfloat) :=
  let labels_true_val : list (list nat) :=
    (fun batch : list sample => label_true <$> batch) <$> dataloader_val in
  let labels_pred_val : list (list nat) :=
    (fun batch : list sample => label_pred <$> batch) <$> dataloader_val in
  let loss_batch_list_val : list pyfloat := loss_function <$> dataloader_val in
  flat_true ← np_reshape_flat labels_true_val;
  flat_pred ← np_reshape_flat labels_pred_val;
  let acc_val := np_mean_bool (zip_with Nat.eqb flat_true flat_pred) in
  let loss_val := np_mean loss_batch_list_val in
  Ok (acc_val, loss_val).

(** The number of evaluated samples whose predicted class is the true
    one, and the number of evaluated samples. *)
Definition correct_flattened (dataloader_val : list (list sample)) : nat :=
  length (filter (fun s => label_true s = label_pred s) (concat dataloader_val)).

Definition total_flattened (dataloader_val : list (list sample)) : nat :=
  length (concat dataloader_val).
End EvalLoop.

(** ** Training loop *)

(** The loop-local variables of [_train_loop]. *)
Record loop_state := LoopState {
  current_best_epoch_idx : Z;
  current_best_loss_val : pyfloat;
  patience : Z;
  epoch_idx_to_model_path : gmap Z string
}.

(** [f"{epoch:02d}"] *)
Definition fmt_02d (epoch : nat) : string :=
  if (epoch <? 10)%nat then "0" +:+ pretty epoch else pretty epoch.

(** [f"cavity_models/model_epoch_{epoch:02d}.pt"] *)
Definition model_path (epoch : nat) : string :=
  "cavity_models/model_epoch_" +:+ fmt_02d epoch +:+ ".pt".

Definition initial_state : loop_state :=
  {| current_best_epoch_idx := -1;
     current_best_loss_val := Fin 10000;
     patience := 0;
     epoch_idx_to_model_path := ∅ |}.

Section TrainLoop.
(** [eval_loss_val epoch] is the [loss_val] that [_eval_loop] returns in
    that epoch, after the epoch's train steps. *)
Variable eval_loss_val : nat -> pyfloat.
Variable PATIENCE_CUTOFF : Z.

(** The "Early stopping" block: the update of best loss, best epoch and
    patience. *)
Definition early_stopping (epoch : nat) (loss_val : pyfloat)
    (st : loop_state) : loop_state :=
  if flt loss_val (current_best_loss_val st) then
    {| current_best_epoch_idx := Z.of_nat epoch;
       current_best_loss_val := loss_val;
       patience := 0;
       epoch_idx_to_model_path := epoch_idx_to_model_path st |}
  else
    {| current_best_epoch_idx := current_best_epoch_idx st;
       current_best_loss_val := current_best_loss_val st;
       patience := patience st + 1;
       epoch_idx_to_model_path := epoch_idx_to_model_path st |}.

(** One iteration of the loop over epochs: the state after it, and
    whether the iteration ends in [break]. *)
Definition epoch_body (epoch : nat) (st : loop_state) : loop_state * bool :=
  let loss_val := eval_loss_val epoch in
  let saved :=
    {| current_best_epoch_idx := current_best_epoch_idx st;
       current_best_loss_val := current_best_loss_val st;
       patience := patience st;
       epoch_idx_to_model_path :=
         <[Z.of_nat epoch := model_path epoch]> (epoch_idx_to_model_path st) |} in
  let st' := early_stopping epoch loss_val saved in
  (st', bool_decide (PATIENCE_CUTOFF < patience st')).

(** [for epoch in epochs: ...], with its [break]. *)
Fixpoint for_epochs (epochs : list nat) (st : loop_state) : loop_state :=
  match epochs with
  | [] => st
  | epoch :: rest =>
      let '(st', stop) := epoch_body epoch st in
      if stop then st' else for_epochs rest st'
  end.

(** The states at the end of each iteration the loop executes, in order
    (the last one is the state the loop leaves). *)
Fixpoint loop_trace (epochs : list nat) (st : loop_state) : list loop_state :=
  match epochs with
  | [] => []
  | epoch :: rest =>
      let '(st', stop) := epoch_body epoch st in
      st' :: (if stop then [] else loop_trace rest st')
  end.

Definition _train_loop (EPOCHS : Z) : pyresult string :=
  let st := for_epochs (seq 0 (Z.to_nat EPOCHS)) initial_state in
  match epoch_idx_to_model_path st !! current_best_epoch_idx st with
  | Some best_model_path => Ok best_model_path
  | None => Raise KeyError
  end.

(** The number of epochs the loop executes. *)
Definition epochs_run (EPOCHS : Z) : nat :=
  length (loop_trace (seq 0 (Z.to_nat EPOCHS)) initial_state).
End TrainLoop.

(** The best validation loss before a given epoch when no epoch is cut
    off: the sentinel, lowered by every epoch that beats it. *)
Fixpoint running_best (eval_loss_val : nat -> pyfloat) (epoch : nat) : pyfloat :=
  match epoch with
  | O => Fin 10000
  | S e =>
      if flt (eval_loss_val e) (running_best eval_loss_val e)
      then eval_loss_val e
      else running_best eval_loss_val e
  end.

(** An epoch improves when its validation loss is strictly below the best
    loss of the epochs before it. *)
Definition improving (eval_loss_val : nat -> pyfloat) (epoch : nat) : bool :=
  flt (eval_loss_val epoch) (running_best eval_loss_val epoch).

(** What holds of the loop state once the epochs below [n] have run: every
    one of them has its checkpoint path recorded, the sentinel index has
    none, and the best epoch is either still the sentinel (no loss was
    below 1e4) or an epoch whose loss no other epoch beats. *)
Definition loop_invariant (eval_loss_val : nat -> pyfloat) (n : nat)
    (st : loop_state) : Prop :=
  (forall e, (e < n)%nat ->
             epoch_idx_to_model_path st !! Z.of_nat e = Some (model_path e)) /\
  epoch_idx_to_model_path st !! (-1) = None /\
  ((current_best_epoch_idx st = -1 /\
    current_best_loss_val st = Fin 10000 /\
    forall e, (e < n)%nat -> flt (eval_loss_val e) (Fin 10000) = false) \/
   (exists b, (b < n)%nat /\
      current_best_epoch_idx st = Z.of_nat b /\
      current_best_loss_val st = eval_loss_val b /\
      flt (eval_loss_val b) (Fin 10000) = true /\
      forall e, (e < n)%nat -> flt (eval_loss_val e) (eval_loss_val b) = false)).

(** ** ddG enrichment, stage A: matching residue environments *)

(** A cell of a data frame beyond the three columns the pipeline reads. *)
Inductive cell :=
| CNum (x : pyfloat)
| CStr (s : string)
| CNone.

(** [pd.isna] on a cell. *)
Definition isna (c : cell) : bool :=
  match c with
  | CNum NaN | CNone => true
  | _ => false
  end.

(** A row of a mutation table. *)
Record ddg_row := DdgRow {
  pdbid : string;
  chainid : string;
  variant : string;
  other_columns : list cell
}.

(** Modelled from the spec: [Bio.PDB.Polypeptide.one_to_index] is imported,
    not defined under src/; the fixed 20-letter alphabet and its order are
    Biopython's. *)
Definition aa1 : string := "ACDEFGHIKLMNPQRSTVWY".

Fixpoint index_of (c : ascii) (l : list ascii) : option nat :=
  match l with
  | [] => None
  | x :: l' => if decide (x = c) then Some 0%nat else S <$> index_of c l'
  end.

Definition one_to_index (c : ascii) : pyresult nat :=
  match index_of c (chars aa1) with
  | Some i => Ok i
  | None => Raise KeyError
  end.

(** The key under which a row's residue environment is looked up. *)
Definition resenv_key (row : ddg_row) : pyresult string :=
  let position := str_slice (variant row) 1 (-1) in
  wt ← str_first (variant row);
  Ok (pdbid row +:+ chainid row +:+ "_" +:+ position +:+ String wt "").

Definition ddg_data_key_adhoc_fix (ddg_data_key : string) : string :=
  if str_in "symmetric" ddg_data_key then "symmetric" else ddg_data_key.

Section StageA.
Context {ResidueEnvironment : Type}.

(** The body of the [try]: [None] is the [np.nan] the [except KeyError]
    branch appends. *)
Definition match_resenv (resenv_datasets_look_up : gmap string (gmap string ResidueEnvironment))
    (ddg_data_key resenv_key : string) : option ResidueEnvironment :=
  dataset ← resenv_datasets_look_up !! ddg_data_key_adhoc_fix ddg_data_key;
  dataset !! resenv_key.

(** A row after stage A. *)
Record matched_row := MatchedRow {
  m_row : ddg_row;
  resenv : ResidueEnvironment;
  wt_idx : nat;
  mt_idx : nat
}.

(** [df.dropna()] on the frame with its new [resenv] column: a row
    survives when none of its cells is missing. *)
Definition dropna (df : list (ddg_row * option ResidueEnvironment))
    : list (ddg_row * ResidueEnvironment) :=
  omap (fun '(row, e) =>
          if forallb (fun c => negb (isna c)) (other_columns row)
          then pair row <$> e else None) df.

(** The body of the loop over the data sets: the [resenv] column, the
    [dropna], and the two [apply] calls that add [wt_idx] and [mt_idx] (an
    unknown letter raises in [one_to_index], outside the [try]).  On a
    frame that [dropna] left without rows, [apply] returns a frame instead
    of a column, and the assignment to [wt_idx] raises. *)
Definition populate_df_with_resenvs
    (resenv_datasets_look_up : gmap string (gmap string ResidueEnvironment))
    (ddg_data_key : string) (df : list ddg_row) : pyresult (list matched_row) :=
  resenvs_ddg_data ←
    traverse (fun row => key ← resenv_key row;
                         Ok (match_resenv resenv_datasets_look_up ddg_data_key key)) df;
  let kept := dropna (zip df resenvs_ddg_data) in
  match kept with
  | [] => Raise ValueError
  | _ :: _ =>
      wt_idxs ←
        traverse (fun '(row, _) => c ← str_first (variant row); one_to_index c) kept;
      mt_idxs ←
        traverse (fun '(row, _) => c ← str_last (variant row); one_to_index c) kept;
      Ok (zip_with (fun '(row, e) '(wt, mt) => MatchedRow row e wt mt)
                   kept (zip wt_idxs mt_idxs))
  end.

(** The loop over the data sets. *)
Definition _populate_dfs_with_resenvs
    (ddg_data_dict : list (string * list ddg_row))
    (resenv_datasets_look_up : gmap string (gmap string ResidueEnvironment))
    : pyresult (list (string * list matched_row)) :=
  traverse (fun '(ddg_data_key, df) =>
              df' ← populate_df_with_resenvs resenv_datasets_look_up ddg_data_key df;
              Ok (ddg_data_key, df')) ddg_data_dict.

(** A row whose lookup misses. *)
Definition lookup_miss
    (resenv_datasets_look_up : gmap string (gmap string ResidueEnvironment))
    (ddg_data_key : string) (row : ddg_row) : bool :=
  match resenv_key row with
  | Ok key =>
      match match_resenv resenv_datasets_look_up ddg_data_key key with
      | Some _ => false
      | None => true
      end
  | Raise _ => false
  end.

(** ** ddG enrichment, stage B: scoring *)

(** A row after stage B. *)
Record scored_row := ScoredRow {
  s_row : matched_row;
  nlls : list float;
  wt_nll : float;
  mt_nll : float;
  wt_nlf : float;
  mt_nlf : float;
  ddg_pred_no_ds : float
}.

(** [arr[i]] for an index that is not negative. *)
Definition np_index (arr : list float) (i : nat) : pyresult float :=
  match arr !! i with
  | Some x => Ok x
  | None => Raise IndexError
  end.

(** The lambda of the last [df.apply]:
    [row["mt_nll"] - row["mt_nlf"] - row["wt_nll"] + row["wt_nlf"]], in
    binary64 and from left to right. *)
Definition ddg_lambda (mt_nll mt_nlf wt_nll wt_nlf : float) : float :=
  PrimFloat.add (PrimFloat.sub (PrimFloat.sub mt_nll mt_nlf) wt_nll) wt_nlf.

(** [infer_nlls e] is the row of [-log(softmax(net(x)) + EPS)] the network
    gives for the environment [e]; [pdb_nlfs] is [-log] of the background
    frequencies loaded from [data/pdb_frequencies.npz]. *)
Variable infer_nlls : ResidueEnvironment -> list float.
Variable pdb_nlfs : list float.

Definition score_row (row : matched_row) : pyresult scored_row :=
  let nlls := infer_nlls (resenv row) in
  wt_nll ← np_index nlls (wt_idx row);
  mt_nll ← np_index nlls (mt_idx row);
  wt_nlf ← np_index pdb_nlfs (wt_idx row);
  mt_nlf ← np_index pdb_nlfs (mt_idx row);
  Ok (ScoredRow row nlls wt_nll mt_nll wt_nlf mt_nlf
                (ddg_lambda mt_nll mt_nlf wt_nll wt_nlf)).

(** One data set of stage B.  [np.vstack] of no batch at all raises. *)
Definition populate_df_with_nlls_and_nlfs (df : list matched_row)
    : pyresult (list scored_row) :=
  match df with
  | [] => Raise ValueError
  | _ :: _ => traverse score_row df
  end.

End StageA.

(** ** Further definitions *)

(** A row that stage A keeps: no cell of it is missing and its lookup
    hits. *)
Definition survives {ResidueEnvironment : Type}
    (resenv_datasets_look_up : gmap string (gmap string ResidueEnvironment))
    (ddg_data_key : string) (row : ddg_row) : bool :=
  forallb (fun c => negb (isna c)) (other_columns row) &&
  negb (lookup_miss resenv_datasets_look_up ddg_data_key row).

(** The letters of a row's variant are in the alphabet of
    [one_to_index]. *)
Definition known_letters (row : ddg_row) : bool :=
  match c ← str_first (variant row); one_to_index c,
        c ← str_last (variant row); one_to_index c with
  | Ok _, Ok _ => true
  | _, _ => false
  end.


(** [np.vstack] of a list of two-dimensional arrays (each a list of rows):
    no array at all raises, and so do rows of different widths. *)
Definition np_vstack (arrays : list (list (list float)))
    : pyresult (list (list float)) :=
  match arrays with
  | [] => Raise ValueError
  | _ :: _ =>
      match concat arrays with
      | [] => Ok []
      | row :: rows =>
          if forallb (fun r => (length r =? length row)%nat) rows
          then Ok (row :: rows)
          else Raise ValueError
      end
  end.

Section StageBBatched.
Context {ResidueEnvironment : Type}.
Variable infer_nlls : ResidueEnvironment -> list float.
Variable pdb_nlfs : list float.
Variable BATCH_SIZE : nat.

(** The four [apply] calls that follow [df["nlls"] = pred_nlls_list], on a
    row and the vector assigned to it. *)
Definition score_row_of (row : matched_row (ResidueEnvironment:=ResidueEnvironment))
    (nlls : list float) : pyresult scored_row :=
  wt_nll ← np_index nlls (wt_idx row);
  mt_nll ← np_index nlls (mt_idx row);
  wt_nlf ← np_index pdb_nlfs (wt_idx row);
  mt_nlf ← np_index pdb_nlfs (mt_idx row);
  Ok (ScoredRow row nlls wt_nll mt_nll wt_nlf mt_nlf
                (ddg_lambda mt_nll mt_nlf wt_nll wt_nlf)).

(** One data set of stage B with its data loader: the batches of the
    matched environments (no shuffling, last batch kept), the network on
    each batch (row by row [infer_nlls]), [np.vstack] of the batch results,
    the assignment of the stacked rows as the column [nlls] (which raises
    when their number is not the number of rows of the frame), and the
    [apply] calls. *)
Definition populate_df_with_nlls_and_nlfs_batched (df : list matched_row)
    : pyresult (list scored_row) :=
  let ddg_resenvs := resenv <$> df in
  ddg_resenv_dataloader ← DataLoader ddg_resenvs BATCH_SIZE false;
  let pred_nlls :=
    (fun batch : list ResidueEnvironment => infer_nlls <$> batch)
      <$> ddg_resenv_dataloader in
  pred_nlls_list ← np_vstack pred_nlls;
  if decide (length pred_nlls_list = length df)
  then traverse (fun '(row, nlls) => score_row_of row nlls) (zip df pred_nlls_list)
  else Raise ValueError.
End StageBBatched.

(** What also holds of the loop state once the epochs below [n] have run:
    patience counts the epochs since the best one, the checkpoint map has
    the executed epochs as its keys and nothing else, and every epoch
    before the best one had a strictly higher loss, or NaN. *)
Definition loop_bookkeeping (eval_loss_val : nat -> pyfloat) (n : nat)
    (st : loop_state) : Prop :=
  loop_invariant eval_loss_val n st /\
  patience st = Z.of_nat n - 1 - current_best_epoch_idx st /\
  -1 <= current_best_epoch_idx st < Z.of_nat n /\
  (forall k p, epoch_idx_to_model_path st !! k = Some p ->
               0 <= k < Z.of_nat n /\ p = model_path (Z.to_nat k)) /\
  (forall b e, current_best_epoch_idx st = Z.of_nat b -> (e < b)%nat ->
               is_nan (eval_loss_val e) = true \/
               flt (eval_loss_val b) (eval_loss_val e) = true).

(** * Properties *)

(** ** Exceptions *)

Lemma bind_Ok {A B} (m : pyresult A) (k : A -> pyresult B) b :
  m ≫= k = Ok b -> exists a, m = Ok a /\ k a = Ok b.
Proof. destruct m as [a|e]; [eauto | discriminate]. Qed.

Lemma bind_Ok_l {A B} (a : A) (k : A -> pyresult B) : Ok a ≫= k = k a.
Proof. reflexivity. Qed.

(** ** The order on floats *)

Lemma Qltb_lt x y : Qltb x y = true <-> (x < y)%Q.
Proof.
  unfold Qltb. rewrite negb_true_iff, <- not_true_iff_false, Qle_bool_iff.
  split; [apply Qnot_le_lt | apply Qlt_not_le].
Qed.

Lemma flt_irrefl a : flt a a = false.
Proof.
  destruct a as [| |q|]; simpl; try reflexivity.
  apply not_true_iff_false. rewrite Qltb_lt. apply Qlt_irrefl.
Qed.

Lemma flt_trans a b c : flt a b = true -> flt b c = true -> flt a c = true.
Proof.
  destruct a, b, c; simpl; try congruence.
  rewrite !Qltb_lt. apply Qlt_trans.
Qed.

Lemma flt_fle a b : flt a b = true -> fle a b = true.
Proof.
  destruct a, b; simpl; try congruence.
  rewrite Qltb_lt, Qle_bool_iff. apply Qlt_le_weak.
Qed.

Lemma fle_refl a : is_nan a = false -> fle a a = true.
Proof.
  destruct a; simpl; try congruence. intros _. apply Qle_bool_iff, Qle_refl.
Qed.

Lemma fle_trans a b c : fle a b = true -> fle b c = true -> fle a c = true.
Proof.
  destruct a, b, c; simpl; try congruence.
  rewrite !Qle_bool_iff. apply Qle_trans.
Qed.

(** A loss that did not beat a bound does not beat anything below the
    bound either. *)
Lemma flt_false_below e l b : flt l b = true -> flt e b = false -> flt e l = false.
Proof.
  intros Hlb Heb. destruct (flt e l) eqn:Hel; [|reflexivity].
  rewrite (flt_trans _ _ _ Hel Hlb) in Heb. discriminate.
Qed.

(** Not below the bound: NaN, or at least the bound. *)
Lemma flt_false_iff l b :
  is_nan b = false ->
  flt l b = false <-> is_nan l = true \/ fle b l = true.
Proof.
  destruct l as [| |x|], b as [| |y|]; simpl; intros Hb; try discriminate;
    try (split; [intros _; (left; reflexivity) || (right; reflexivity) | reflexivity]);
    try (split; [discriminate | intros [?|?]; discriminate]).
  rewrite <- not_true_iff_false, Qltb_lt, Qle_bool_iff. split.
  - intros H. right. apply Qnot_lt_le, H.
  - intros [H|H]; [discriminate | apply Qle_not_lt, H].
Qed.

(** ** Slices *)

Lemma slice_bound_range len i : 0 <= len -> 0 <= slice_bound len i <= len.
Proof.
  intros Hlen. unfold slice_bound. cbv zeta.
  destruct (Z.ltb_spec i 0);
    repeat match goal with |- context [?a <? ?b] => destruct (Z.ltb_spec a b) end; lia.
Qed.

Lemma slice_bound_nonneg len i : 0 <= len -> 0 <= i -> slice_bound len i = Z.min i len.
Proof.
  intros Hlen Hi. unfold slice_bound. cbv zeta.
  destruct (Z.ltb_spec i 0);
    repeat match goal with |- context [?a <? ?b] => destruct (Z.ltb_spec a b) end; lia.
Qed.

Lemma py_slice_to_take {A} (l : list A) n :
  py_slice_to l n = take (Z.to_nat (slice_bound (Z.of_nat (length l)) n)) l.
Proof.
  unfold py_slice_to, py_slice.
  rewrite (slice_bound_nonneg _ 0) by lia.
  rewrite Z.min_l by lia. simpl. rewrite Z.sub_0_r. reflexivity.
Qed.

Lemma py_slice_from_drop {A} (l : list A) n :
  py_slice_from l n = drop (Z.to_nat (slice_bound (Z.of_nat (length l)) n)) l.
Proof.
  unfold py_slice_from, py_slice.
  pose proof (slice_bound_range (Z.of_nat (length l)) n ltac:(lia)) as Hn.
  rewrite (slice_bound_nonneg _ (Z.of_nat (length l))) by lia.
  rewrite Z.min_id. apply take_ge. rewrite length_drop. lia.
Qed.

(** The two slices at one bound cut the list in two, whatever the bound. *)
Lemma py_slice_to_from {A} (l : list A) n : py_slice_to l n ++ py_slice_from l n = l.
Proof. rewrite py_slice_to_take, py_slice_from_drop. apply take_drop. Qed.

Lemma py_slice_cut {A} (l : list A) (n : Z) :
  (0 <= n ->
   py_slice_to l n = take (Z.to_nat n) l /\ py_slice_from l n = drop (Z.to_nat n) l) /\
  (n < 0 ->
   py_slice_to l n = take (length l - Z.to_nat (- n)) l /\
   py_slice_from l n = drop (length l - Z.to_nat (- n)) l).
Proof.
  rewrite py_slice_to_take, py_slice_from_drop. split; intros Hn.
  - rewrite slice_bound_nonneg by lia.
    destruct (Z.min_spec n (Z.of_nat (length l))) as [[? ->]|[? ->]]; [auto|].
    rewrite Nat2Z.id, !take_ge, !drop_ge by lia. auto.
  - assert (slice_bound (Z.of_nat (length l)) n = Z.max 0 (n + Z.of_nat (length l))) as ->.
    { unfold slice_bound. cbv zeta.
      destruct (Z.ltb_spec n 0);
        repeat match goal with |- context [?a <? ?b] => destruct (Z.ltb_spec a b) end; lia. }
    replace (Z.to_nat (Z.max 0 (n + Z.of_nat (length l))))
      with (length l - Z.to_nat (- n))%nat by lia.
    auto.
Qed.

(** ** Train/validation split *)

Lemma DataLoader_returns {A} (dataset : list A) (batch_size : nat) (drop_last : bool) :
  batch_size <> 0%nat -> exists dl, DataLoader dataset batch_size drop_last = Ok dl.
Proof.
  intros HB. unfold DataLoader. destruct (decide (batch_size = 0%nat)); [congruence|].
  cbv zeta. destruct (drop _ dataset); eauto.
Qed.

Section TrainValSplitFacts.
Context {sample : Type}.
Variable environments : string -> list sample.

Abbreviation dataset_of := (ResidueEnvironmentsDataset environments).
Abbreviation split := (_train_val_split environments).

(** What a run of [_train_val_split] that returns went through. *)
Lemma train_val_split_inv total frac BATCH_SIZE r :
  split total frac BATCH_SIZE = Ok r ->
  exists n dl,
    py_int (PrimFloat.mul (float_of_len (length total)) frac) = Ok n /\
    BATCH_SIZE <> 0%nat /\
    dataset_of (py_slice_to total n) <> [] /\
    DataLoader (dataset_of (py_slice_from total n)) BATCH_SIZE true = Ok dl /\
    r = SplitResult (py_slice_to total n) (py_slice_from total n)
                    (dataset_of (py_slice_to total n))
                    (dataset_of (py_slice_from total n)) dl.
Proof.
  unfold _train_val_split. intros H.
  apply bind_Ok in H as (n & Hn & H). cbv zeta in H.
  apply bind_Ok in H as (u & Hcheck & H).
  apply bind_Ok in H as (dl & Hdl & H). injection H as <-.
  exists n, dl. split; [exact Hn|].
  unfold shuffled_loader_check in Hcheck.
  destruct (decide (BATCH_SIZE = 0%nat)); [discriminate|].
  split; [assumption|]. split; [|split; [exact Hdl | reflexivity]].
  intros Hempty. rewrite Hempty in Hcheck. discriminate.
Qed.

(** When [_train_val_split] returns. *)
Lemma train_val_split_returns total frac BATCH_SIZE n :
  py_int (PrimFloat.mul (float_of_len (length total)) frac) = Ok n ->
  BATCH_SIZE <> 0%nat ->
  dataset_of (py_slice_to total n) <> [] ->
  exists r, split total frac BATCH_SIZE = Ok r.
Proof.
  intros Hn HB Hne. unfold _train_val_split. rewrite Hn, bind_Ok_l. cbv zeta.
  unfold shuffled_loader_check. destruct (decide (BATCH_SIZE = 0%nat)); [congruence|].
  destruct (dataset_of (py_slice_to total n)) eqn:E; [congruence|].
  rewrite bind_Ok_l.
  destruct (DataLoader_returns (dataset_of (py_slice_from total n)) BATCH_SIZE true HB)
    as [dl ->].
  rewrite bind_Ok_l. eauto.
Qed.

(** When the cut is [n] and the train group has no environment, the
    function raises. *)
Lemma train_val_split_empty_train total frac BATCH_SIZE n :
  py_int (PrimFloat.mul (float_of_len (length total)) frac) = Ok n ->
  dataset_of (py_slice_to total n) = [] ->
  split total frac BATCH_SIZE = Raise ValueError.
Proof.
  intros Hn He. unfold _train_val_split. rewrite Hn, bind_Ok_l. cbv zeta.
  unfold shuffled_loader_check. rewrite He.
  destruct (decide (BATCH_SIZE = 0%nat)); reflexivity.
Qed.
End TrainValSplitFacts.

(** C6 (as amended): [_train_val_split] returns exactly when
    [int(len(total) * fraction)], computed in binary64, is defined (the
    fraction is neither NaN nor infinite), the batch size is positive and
    the train group holds at least one environment.  When it returns, the
    lengths of the two groups add up to the length of the list, the groups
    are the list cut in two at [n = int(len(total) * fraction)] (the train
    group is the first [n] identifiers when [n] is not negative, and all
    but the last [-n] when it is), both keep the original relative order,
    and the two data sets hold the environments of the files of their
    group. *)
Theorem train_val_split_partition {sample : Type} (environments : string -> list sample)
    (total : list string) (fraction : float) (BATCH_SIZE : nat) :
  ((exists r, _train_val_split environments total fraction BATCH_SIZE = Ok r) <->
   exists n,
     py_int (PrimFloat.mul (float_of_len (length total)) fraction) = Ok n /\
     BATCH_SIZE <> 0%nat /\
     ResidueEnvironmentsDataset environments (py_slice_to total n) <> []) /\
  (forall r,
      _train_val_split environments total fraction BATCH_SIZE = Ok r ->
      exists n,
        py_int (PrimFloat.mul (float_of_len (length total)) fraction) = Ok n /\
        (length (filenames_train r) + length (filenames_val r))%nat = length total /\
        filenames_train r ++ filenames_val r = total /\
        filenames_train r `sublist_of` total /\
        filenames_val r `sublist_of` total /\
        (0 <= n ->
         filenames_train r = take (Z.to_nat n) total /\
         filenames_val r = drop (Z.to_nat n) total) /\
        (n < 0 ->
         filenames_train r = take (length total - Z.to_nat (- n)) total /\
         filenames_val r = drop (length total - Z.to_nat (- n)) total) /\
        dataset_train r = ResidueEnvironmentsDataset environments (filenames_train r) /\
        dataset_val r = ResidueEnvironmentsDataset environments (filenames_val r)).
Proof.
  split.
  - split.
    + intros [r H]. apply train_val_split_inv in H as (n & dl & Hn & HB & Hne & _).
      eauto.
    + intros (n & Hn & HB & Hne). eapply train_val_split_returns; eassumption.
  - intros r H. apply train_val_split_inv in H as (n & dl & Hn & _ & _ & _ & ->).
    exists n. cbn [filenames_train filenames_val dataset_train dataset_val].
    split; [exact Hn|].
    pose proof (py_slice_to_from total n) as Hcut.
    split; [rewrite <- length_app, Hcut; reflexivity|]. split; [exact Hcut|].
    split; [rewrite py_slice_to_take; apply sublist_take|].
    split; [rewrite py_slice_from_drop; apply sublist_drop|].
    destruct (py_slice_cut total n) as [Hpos Hneg]. auto.
Qed.

(** Ten structure files with one environment each and a fraction of 0.7:
    the product is 7.0 in binary64, and the first seven files train. *)
Lemma train_val_split_partition_witness :
  let total := ["f0"; "f1"; "f2"; "f3"; "f4"; "f5"; "f6"; "f7"; "f8"; "f9"] in
  let environments := fun f : string => [f] in
  exists r,
    _train_val_split environments total 0.7%float 2 = Ok r /\
    filenames_train r = ["f0"; "f1"; "f2"; "f3"; "f4"; "f5"; "f6"] /\
    filenames_val r = ["f7"; "f8"; "f9"] /\
    exists n,
      py_int (PrimFloat.mul (float_of_len (length total)) 0.7%float) = Ok n /\
      (length (filenames_train r) + length (filenames_val r))%nat = length total /\
      filenames_train r ++ filenames_val r = total /\
      filenames_train r `sublist_of` total /\
      filenames_val r `sublist_of` total /\
      (0 <= n ->
       filenames_train r = take (Z.to_nat n) total /\
       filenames_val r = drop (Z.to_nat n) total) /\
      (n < 0 ->
       filenames_train r = take (length total - Z.to_nat (- n)) total /\
       filenames_val r = drop (length total - Z.to_nat (- n)) total) /\
      dataset_train r = ResidueEnvironmentsDataset environments (filenames_train r) /\
      dataset_val r = ResidueEnvironmentsDataset environments (filenames_val r).
Proof.
  intros total environments. eexists.
  split; [vm_compute; reflexivity|]. split; [reflexivity|]. split; [reflexivity|].
  apply (proj2 (train_val_split_partition environments total 0.7%float 2)).
  vm_compute. reflexivity.
Defined.

(** C6, as stated, fails.  For one structure file and a fraction of 0.9 the
    train group is empty and the function raises: there is no split.  For
    ten files and a fraction of -0.3 the function returns, the cut
    [int(10 * -0.3)] is -3, and the train group is the first seven files. *)
Lemma train_val_split_counterexample :
  let environments := fun f : string => [f] in
  let total := ["f0"; "f1"; "f2"; "f3"; "f4"; "f5"; "f6"; "f7"; "f8"; "f9"] in
  _train_val_split environments ["f0"] 0.9%float 2 = Raise ValueError /\
  py_int (PrimFloat.mul (float_of_len (length total)) (-0.3)%float) = Ok (-3) /\
  exists r,
    _train_val_split environments total (-0.3)%float 2 = Ok r /\
    filenames_train r = ["f0"; "f1"; "f2"; "f3"; "f4"; "f5"; "f6"] /\
    Z.of_nat (length (filenames_train r)) <> -3.
Proof.
  intros environments total.
  split; [vm_compute; reflexivity|]. split; [vm_compute; reflexivity|].
  eexists. split; [vm_compute; reflexivity|]. split; [reflexivity|].
  simpl. lia.
Qed.

(** ** Data loader and evaluation loop *)

Lemma concat_full_batches {A} (l : list A) (B k : nat) :
  concat ((fun i => take B (drop (i * B) l)) <$> seq 0 k) = take (k * B) l.
Proof.
  induction k as [|k IH]; [reflexivity|].
  rewrite seq_S, fmap_app, concat_app, IH. simpl.
  rewrite app_nil_r, take_take_drop. f_equal. lia.
Qed.

(** The batches of a loader are consecutive pieces of a prefix of the data
    set. *)
Lemma DataLoader_concat {A} (dataset : list A) B d dl :
  DataLoader dataset B d = Ok dl ->
  concat dl = take (length (concat dl)) dataset.
Proof.
  unfold DataLoader. destruct (decide (B = 0%nat)) as [|HB]; [discriminate|].
  set (k := (length dataset / B)%nat).
  assert (Hk : (k * B <= length dataset)%nat).
  { subst k. rewrite Nat.mul_comm. apply Nat.Div0.mul_div_le. }
  assert (Hfull : forall full, full = take (k * B) dataset ->
                               full = take (length full) dataset).
  { intros full ->. rewrite length_take, Nat.min_l by lia. reflexivity. }
  destruct (drop (k * B) dataset) as [|x rest] eqn:Hrest.
  - intros [= <-]. apply Hfull, concat_full_batches.
  - destruct d; intros [= <-]; [apply Hfull, concat_full_batches|].
    rewrite concat_app, concat_full_batches. simpl. rewrite app_nil_r, <- Hrest.
    rewrite take_drop. symmetry. apply take_ge. lia.
Qed.

(** With [drop_last] every batch has [batch_size] items. *)
Lemma DataLoader_drop_last_full {A} (dataset : list A) B dl :
  DataLoader dataset B true = Ok dl -> Forall (fun b => length b = B) dl.
Proof.
  unfold DataLoader. destruct (decide (B = 0%nat)) as [|HB]; [discriminate|].
  set (k := (length dataset / B)%nat).
  assert (Hk : (k * B <= length dataset)%nat).
  { subst k. rewrite Nat.mul_comm. apply Nat.Div0.mul_div_le. }
  intros H.
  assert (dl = (fun i => take B (drop (i * B) dataset)) <$> seq 0 k) as ->.
  { destruct (drop (k * B) dataset); congruence. }
  apply Forall_fmap, Forall_forall. intros i Hi. simpl.
  apply elem_of_seq in Hi. rewrite length_take, length_drop. nia.
Qed.

Lemma DataLoader_drop_last_total {A} (dataset : list A) B dl :
  DataLoader dataset B true = Ok dl ->
  length (concat dl) = (length dataset / B * B)%nat.
Proof.
  unfold DataLoader. destruct (decide (B = 0%nat)) as [|HB]; [discriminate|].
  set (k := (length dataset / B)%nat).
  assert (Hk : (k * B <= length dataset)%nat).
  { subst k. rewrite Nat.mul_comm. apply Nat.Div0.mul_div_le. }
  intros H.
  assert (dl = (fun i => take B (drop (i * B) dataset)) <$> seq 0 k) as ->.
  { destruct (drop (k * B) dataset); congruence. }
  rewrite concat_full_batches, length_take. lia.
Qed.

Lemma np_reshape_flat_ok {A} (arrays : list (list A)) flat :
  np_reshape_flat arrays = Ok flat -> flat = concat arrays.
Proof.
  destruct arrays as [|a rest]; simpl; [congruence|].
  destruct (forallb _ rest); congruence.
Qed.

Lemma np_reshape_flat_rect {A} (arrays : list (list A)) B :
  Forall (fun b => length b = B) arrays ->
  np_reshape_flat arrays = Ok (concat arrays).
Proof.
  destruct 1 as [|a rest Ha Hrest]; [reflexivity|]. unfold np_reshape_flat.
  replace (forallb _ rest) with true; [reflexivity|].
  symmetry. apply forallb_forall. intros b Hb. apply Nat.eqb_eq.
  rewrite Forall_forall in Hrest. rewrite Ha. apply Hrest, list_elem_of_In, Hb.
Qed.

Lemma concat_fmap_batches {A B} (f : A -> B) (dl : list (list A)) :
  concat ((fun batch : list A => f <$> batch) <$> dl) = f <$> concat dl.
Proof.
  induction dl as [|b dl IH]; [reflexivity|].
  rewrite fmap_cons, !concat_cons, IH, fmap_app. reflexivity.
Qed.

Lemma count_true_fmap {A} (f g : A -> nat) (l : list A) :
  length (filter (fun b : bool => b = true) ((fun s => f s =? g s)%nat <$> l)) =
  length (filter (fun s => f s = g s) l).
Proof.
  induction l as [|s l IH]; [reflexivity|].
  rewrite fmap_cons, !filter_cons.
  destruct (Nat.eqb_spec (f s) (g s)) as [E|E];
    repeat case_decide; try congruence; simpl; rewrite IH; reflexivity.
Qed.

Section EvalLoopFacts.
Context {sample : Type}.
Variable label_true : sample -> nat.
Variable label_pred : sample -> nat.
Variable loss_function : list sample -> pyfloat.

Abbreviation eval := (_eval_loop label_true label_pred loss_function).
Abbreviation correct := (correct_flattened label_true label_pred).

(** The accuracy the loop returns compares the flattened labels. *)
Lemma eval_loop_accuracy dl acc loss :
  eval dl = Ok (acc, loss) ->
  acc = np_mean_bool ((fun s => label_true s =? label_pred s)%nat <$> concat dl).
Proof.
  unfold eval, _eval_loop. cbv zeta.
  destruct (np_reshape_flat ((fun batch : list sample => label_true <$> batch) <$> dl))
    as [ft|] eqn:Ht; [|discriminate].
  destruct (np_reshape_flat ((fun batch : list sample => label_pred <$> batch) <$> dl))
    as [fp|] eqn:Hp; [|discriminate].
  simpl. intros [= <- _].
  apply np_reshape_flat_ok in Ht, Hp. subst ft fp.
  rewrite !concat_fmap_batches, zip_with_fmap_l, zip_with_fmap_r, zip_with_diag.
  reflexivity.
Qed.

Lemma eval_loop_micro_average dl acc loss :
  eval dl = Ok (acc, loss) ->
  total_flattened dl <> 0%nat ->
  acc = Fin (Z.of_nat (correct dl) # Pos.of_nat (total_flattened dl)).
Proof.
  intros H Hne. rewrite (eval_loop_accuracy _ _ _ H).
  unfold correct, correct_flattened, total_flattened in *.
  destruct (concat dl) as [|s l] eqn:E; [contradiction|].
  rewrite <- (count_true_fmap label_true label_pred (s :: l)).
  rewrite <- (length_fmap (fun s => label_true s =? label_pred s)%nat (s :: l)).
  reflexivity.
Qed.

(** On batches of one size the loop returns. *)
Lemma eval_loop_returns dl B :
  Forall (fun b => length b = B) dl -> exists acc loss, eval dl = Ok (acc, loss).
Proof.
  intros Hrect. unfold eval, _eval_loop. cbv zeta.
  rewrite (np_reshape_flat_rect _ B), (np_reshape_flat_rect _ B).
  - simpl. eauto.
  - apply Forall_fmap. eapply Forall_impl; [exact Hrect|].
    intros b Hb. simpl. rewrite length_fmap. exact Hb.
  - apply Forall_fmap. eapply Forall_impl; [exact Hrect|].
    intros b Hb. simpl. rewrite length_fmap. exact Hb.
Qed.

(** Two loaders over one data set that evaluate the same number of
    samples give the same accuracy. *)
Lemma eval_loop_same_coverage (dataset : list sample) B1 B2 d dl1 dl2 r1 r2 :
  DataLoader dataset B1 d = Ok dl1 ->
  DataLoader dataset B2 d = Ok dl2 ->
  total_flattened dl1 = total_flattened dl2 ->
  eval dl1 = Ok r1 -> eval dl2 = Ok r2 ->
  r1.1 = r2.1.
Proof.
  intros H1 H2 Htot E1 E2. destruct r1 as [a1 l1], r2 as [a2 l2]. simpl.
  rewrite (eval_loop_accuracy _ _ _ E1), (eval_loop_accuracy _ _ _ E2).
  rewrite (DataLoader_concat _ _ _ _ H1), (DataLoader_concat _ _ _ _ H2).
  unfold total_flattened in Htot. rewrite Htot. reflexivity.
Qed.
End EvalLoopFacts.

(** C7 (as amended): the accuracy the evaluation loop returns is
    [correct_flattened / total_flattened] over all labels of the batches it
    was given (a micro-average over samples).  Under drop-last, two batch
    sizes that leave the same number of samples evaluated
    ([N / B1 * B1 = N / B2 * B2], for instance when both divide [N]) give
    the same accuracy; more generally, with the drop-last policy held fixed,
    two loaders over one data set that evaluate the same number of samples
    give the same accuracy. *)
Theorem eval_accuracy_micro_average {sample : Type}
    (label_true label_pred : sample -> nat) (loss_function : list sample -> pyfloat) :
  (forall dl acc loss,
      _eval_loop label_true label_pred loss_function dl = Ok (acc, loss) ->
      total_flattened dl <> 0%nat ->
      acc = Fin (Z.of_nat (correct_flattened label_true label_pred dl)
                 # Pos.of_nat (total_flattened dl))) /\
  (forall dataset B1 B2 dl1 dl2,
      DataLoader dataset B1 true = Ok dl1 ->
      DataLoader dataset B2 true = Ok dl2 ->
      (length dataset / B1 * B1 = length dataset / B2 * B2)%nat ->
      exists acc loss1 loss2,
        _eval_loop label_true label_pred loss_function dl1 = Ok (acc, loss1) /\
        _eval_loop label_true label_pred loss_function dl2 = Ok (acc, loss2)) /\
  (forall dataset B1 B2 drop_last dl1 dl2 r1 r2,
      DataLoader dataset B1 drop_last = Ok dl1 ->
      DataLoader dataset B2 drop_last = Ok dl2 ->
      total_flattened dl1 = total_flattened dl2 ->
      _eval_loop label_true label_pred loss_function dl1 = Ok r1 ->
      _eval_loop label_true label_pred loss_function dl2 = Ok r2 ->
      r1.1 = r2.1).
Proof.
  split; [apply eval_loop_micro_average|].
  split; [|apply eval_loop_same_coverage].
  intros dataset B1 B2 dl1 dl2 H1 H2 Hcov.
  destruct (eval_loop_returns label_true label_pred loss_function dl1 B1
              (DataLoader_drop_last_full _ _ _ H1)) as (a1 & l1 & E1).
  destruct (eval_loop_returns label_true label_pred loss_function dl2 B2
              (DataLoader_drop_last_full _ _ _ H2)) as (a2 & l2 & E2).
  exists a1, l1, l2. split; [exact E1|].
  assert (Htot : total_flattened dl1 = total_flattened dl2).
  { unfold total_flattened.
    rewrite (DataLoader_drop_last_total _ _ _ H1), (DataLoader_drop_last_total _ _ _ H2).
    exact Hcov. }
  pose proof (eval_loop_same_coverage label_true label_pred loss_function
                dataset B1 B2 true dl1 dl2 _ _ H1 H2 Htot E1 E2) as Hacc.
  simpl in Hacc. rewrite Hacc. exact E2.
Qed.

(** Four validation samples as (true class, predicted class), the last one
    misclassified; batches of two and of four cover all of them. *)
Lemma eval_accuracy_micro_average_witness :
  let samples := [(0, 0); (3, 3); (7, 7); (1, 2)]%nat in
  let loss := fun _ : list (nat * nat) => Fin 1 in
  (fst <$> _eval_loop fst snd loss [[(0, 0); (3, 3)]; [(7, 7); (1, 2)]]%nat
     = Ok (Fin (3 # 4))) /\
  Fin (3 # 4)
    = Fin (Z.of_nat (correct_flattened fst snd [[(0, 0); (3, 3)]; [(7, 7); (1, 2)]]%nat)
           # Pos.of_nat (total_flattened [[(0, 0); (3, 3)]; [(7, 7); (1, 2)]]%nat)) /\
  exists acc loss1 loss2,
    _eval_loop fst snd loss [[(0, 0); (3, 3)]; [(7, 7); (1, 2)]]%nat = Ok (acc, loss1) /\
    _eval_loop fst snd loss [[(0, 0); (3, 3); (7, 7); (1, 2)]]%nat = Ok (acc, loss2).
Proof.
  intros samples loss. split; [reflexivity|]. split.
  - eapply (proj1 (eval_accuracy_micro_average fst snd loss)).
    + reflexivity.
    + vm_compute. discriminate.
  - apply (proj1 (proj2 (eval_accuracy_micro_average fst snd loss)) samples 2%nat 4%nat);
      reflexivity.
Defined.

(** C7, as stated, fails: with drop-last held fixed (on, as in
    [_train_val_split]) the batch size decides how many trailing samples are
    left out.  Three samples, the last one misclassified: batches of one
    evaluate all three (accuracy 2/3), batches of two evaluate the first two
    only (accuracy 1). *)
Lemma eval_accuracy_batch_size_counterexample :
  let samples := [(0, 0); (0, 0); (0, 1)]%nat in
  let loss := fun _ : list (nat * nat) => Fin 1 in
  exists dl1 dl2 acc1 acc2 loss1 loss2,
    DataLoader samples 1 true = Ok dl1 /\
    DataLoader samples 2 true = Ok dl2 /\
    _eval_loop fst snd loss dl1 = Ok (acc1, loss1) /\
    _eval_loop fst snd loss dl2 = Ok (acc2, loss2) /\
    same_float acc1 (Fin (2 # 3)) /\
    same_float acc2 (Fin 1) /\
    ~ same_float acc1 acc2.
Proof.
  intros samples loss. do 6 eexists.
  repeat (split; [reflexivity|]).
  vm_compute. discriminate.
Qed.

(** ** Training loop *)

Section TrainLoopFacts.
Variable eval_loss_val : nat -> pyfloat.
Variable PATIENCE_CUTOFF : Z.

Abbreviation body := (epoch_body eval_loss_val PATIENCE_CUTOFF).
Abbreviation trace := (loop_trace eval_loss_val PATIENCE_CUTOFF).
Abbreviation run := (for_epochs eval_loss_val PATIENCE_CUTOFF).

Lemma epoch_body_stop epoch st :
  (body epoch st).2 = true <-> PATIENCE_CUTOFF < patience (body epoch st).1.
Proof. unfold epoch_body. simpl. apply bool_decide_eq_true. Qed.

Lemma epoch_body_best epoch st :
  current_best_loss_val (body epoch st).1 =
    if flt (eval_loss_val epoch) (current_best_loss_val st)
    then eval_loss_val epoch else current_best_loss_val st.
Proof.
  unfold epoch_body, early_stopping. simpl.
  destruct (flt _ _); reflexivity.
Qed.

Lemma epoch_body_idx epoch st :
  current_best_epoch_idx (body epoch st).1 =
    if flt (eval_loss_val epoch) (current_best_loss_val st)
    then Z.of_nat epoch else current_best_epoch_idx st.
Proof.
  unfold epoch_body, early_stopping. simpl.
  destruct (flt _ _); reflexivity.
Qed.

Lemma epoch_body_patience epoch st :
  patience (body epoch st).1 =
    if flt (eval_loss_val epoch) (current_best_loss_val st)
    then 0 else patience st + 1.
Proof.
  unfold epoch_body, early_stopping. simpl.
  destruct (flt _ _); reflexivity.
Qed.

Lemma epoch_body_paths epoch st :
  epoch_idx_to_model_path (body epoch st).1 =
    <[Z.of_nat epoch := model_path epoch]> (epoch_idx_to_model_path st).
Proof.
  unfold epoch_body, early_stopping. simpl.
  destruct (flt _ _); reflexivity.
Qed.

Lemma loop_trace_cons epoch rest st :
  trace (epoch :: rest) st =
    (body epoch st).1 ::
      (if (body epoch st).2 then [] else trace rest (body epoch st).1).
Proof. simpl. destruct (body epoch st). reflexivity. Qed.

Lemma for_epochs_cons epoch rest st :
  run (epoch :: rest) st =
    if (body epoch st).2 then (body epoch st).1 else run rest (body epoch st).1.
Proof. simpl. destruct (body epoch st). reflexivity. Qed.

(** The loop leaves the last state of its trace. *)
Lemma for_epochs_last epochs st :
  run epochs st = default st (last (trace epochs st)).
Proof.
  revert st. induction epochs as [|e rest IH]; intros st; [reflexivity|].
  rewrite for_epochs_cons, loop_trace_cons.
  destruct (body e st).2; [reflexivity|].
  rewrite IH. destruct (trace rest (body e st).1) as [|s tr] eqn:E; [reflexivity|].
  change (last ((body e st).1 :: s :: tr)) with (last (s :: tr)).
  destruct (last (s :: tr)) eqn:El; [reflexivity|].
  apply last_None in El. discriminate.
Qed.

Lemma loop_trace_length epochs st : (length (trace epochs st) <= length epochs)%nat.
Proof.
  revert st. induction epochs as [|e rest IH]; intros st; [reflexivity|].
  rewrite loop_trace_cons. specialize (IH (body e st).1).
  destruct (body e st).2; cbn [length]; lia.
Qed.

(** Every state of the trace comes from the state before it by the loop
    body of its epoch. *)
Lemma loop_trace_step start len st i s s' :
  (st :: trace (seq start len) st) !! i = Some s ->
  trace (seq start len) st !! i = Some s' ->
  s' = (body (start + i) s).1.
Proof.
  revert start st i. induction len as [|len IH]; intros start st i; [discriminate|].
  simpl seq. rewrite loop_trace_cons. destruct i as [|i].
  - simpl. intros [= <-] [= <-]. rewrite Nat.add_0_r. reflexivity.
  - rewrite !(lookup_cons _ _ (S i)).
    destruct (body start st).2.
    + intros _ H. destruct i; discriminate.
    + intros H1 H2. rewrite (IH (S start) _ i H1 H2). f_equal. f_equal. lia.
Qed.

(** No state but the last has its patience above the cutoff. *)
Lemma loop_trace_continue epochs st i s :
  trace epochs st !! i = Some s ->
  (S i < length (trace epochs st))%nat ->
  patience s <= PATIENCE_CUTOFF.
Proof.
  revert st i. induction epochs as [|e rest IH]; intros st i; [discriminate|].
  rewrite loop_trace_cons.
  destruct (body e st).2 eqn:Hstop.
  - cbn [length]. lia.
  - rewrite lookup_cons. cbn [length]. destruct i as [|i].
    + intros [= <-] _.
      destruct (Z_lt_le_dec PATIENCE_CUTOFF (patience (body e st).1)) as [Hlt|Hle];
        [|exact Hle].
      apply epoch_body_stop in Hlt. congruence.
    + intros H Hlen. apply (IH _ i H). lia.
Qed.

(** A loop that ends before its epochs are used up ends on a patience above
    the cutoff. *)
Lemma loop_trace_early epochs st :
  (length (trace epochs st) < length epochs)%nat ->
  exists s, last (trace epochs st) = Some s /\ PATIENCE_CUTOFF < patience s.
Proof.
  revert st. induction epochs as [|e rest IH]; intros st; [cbn [length]; lia|].
  rewrite loop_trace_cons.
  destruct (body e st).2 eqn:Hstop.
  - intros _. exists (body e st).1. split; [reflexivity|].
    apply epoch_body_stop, Hstop.
  - cbn [length]. intros Hlen.
    destruct (IH (body e st).1 ltac:(lia)) as (s & Hlast & Hs).
    exists s. split; [|exact Hs].
    destruct (trace rest (body e st).1) as [|s0 tr]; [discriminate|].
    exact Hlast.
Qed.
End TrainLoopFacts.

Section TrainLoopInvariant.
Variable eval_loss_val : nat -> pyfloat.
Variable PATIENCE_CUTOFF : Z.

Abbreviation body := (epoch_body eval_loss_val PATIENCE_CUTOFF).
Abbreviation trace := (loop_trace eval_loss_val PATIENCE_CUTOFF).
Abbreviation run := (for_epochs eval_loss_val PATIENCE_CUTOFF).
Abbreviation Inv := (loop_invariant eval_loss_val).

Lemma loop_invariant_initial : Inv 0 initial_state.
Proof.
  split; [intros e He; lia|]. split; [reflexivity|].
  left. split; [reflexivity|]. split; [reflexivity|]. intros e He. lia.
Qed.

(** The loop body of epoch [n] carries the invariant from [n] to [S n]. *)
Lemma loop_invariant_step n st : Inv n st -> Inv (S n) (body n st).1.
Proof.
  intros (Hpaths & Hsent & Hbest). unfold loop_invariant.
  rewrite epoch_body_paths, epoch_body_idx, epoch_body_best.
  split; [|split].
  - intros e He. destruct (decide (e = n)) as [->|Hne].
    + apply lookup_insert_eq.
    + rewrite lookup_insert_ne by lia. apply Hpaths. lia.
  - rewrite lookup_insert_ne by lia. exact Hsent.
  - destruct (flt (eval_loss_val n) (current_best_loss_val st)) eqn:Hlt.
    + right. exists n. split; [lia|]. split; [reflexivity|]. split; [reflexivity|].
      destruct Hbest as [(_ & Hb & Hall)|(b & Hb & _ & Hbl & Hb4 & Hall)].
      * rewrite Hb in Hlt. split; [exact Hlt|].
        intros e He. destruct (decide (e = n)) as [->|Hne]; [apply flt_irrefl|].
        apply (flt_false_below _ _ _ Hlt). apply Hall. lia.
      * rewrite Hbl in Hlt. split; [exact (flt_trans _ _ _ Hlt Hb4)|].
        intros e He. destruct (decide (e = n)) as [->|Hne]; [apply flt_irrefl|].
        apply (flt_false_below _ _ _ Hlt). apply Hall. lia.
    + destruct Hbest as [(Hi & Hb & Hall)|(b & Hb & Hi & Hbl & Hb4 & Hall)].
      * left. split; [exact Hi|]. split; [exact Hb|].
        intros e He. destruct (decide (e = n)) as [->|Hne].
        -- rewrite <- Hb. exact Hlt.
        -- apply Hall. lia.
      * right. exists b. split; [lia|]. split; [exact Hi|]. split; [exact Hbl|].
        split; [exact Hb4|].
        intros e He. destruct (decide (e = n)) as [->|Hne].
        -- rewrite <- Hbl. exact Hlt.
        -- apply Hall. lia.
Qed.

(** The state the loop leaves satisfies the invariant at the number of
    epochs it executed. *)
Lemma loop_invariant_run start len st :
  Inv start st ->
  Inv (start + length (trace (seq start len) st)) (run (seq start len) st).
Proof.
  revert start st. induction len as [|len IH]; intros start st HI.
  - simpl. rewrite Nat.add_0_r. exact HI.
  - simpl seq. rewrite loop_trace_cons, for_epochs_cons.
    pose proof (loop_invariant_step _ _ HI) as HI'.
    destruct (body start st).2; cbn [length].
    + replace (start + 1)%nat with (S start) by lia. exact HI'.
    + specialize (IH _ _ HI').
      replace (start + S (length (trace (seq (S start) len) (body start st).1)))%nat
        with (S start + length (trace (seq (S start) len) (body start st).1))%nat by lia.
      exact IH.
Qed.

Lemma loop_invariant_final EPOCHS :
  Inv (epochs_run eval_loss_val PATIENCE_CUTOFF EPOCHS)
      (run (seq 0 (Z.to_nat EPOCHS)) initial_state).
Proof. apply (loop_invariant_run 0), loop_invariant_initial. Qed.

(** The best loss is never NaN, and an iteration never raises it. *)
Lemma epoch_body_best_le epoch st :
  is_nan (current_best_loss_val st) = false ->
  fle (current_best_loss_val (body epoch st).1) (current_best_loss_val st) = true /\
  is_nan (current_best_loss_val (body epoch st).1) = false.
Proof.
  intros Hn. rewrite epoch_body_best.
  destruct (flt (eval_loss_val epoch) (current_best_loss_val st)) eqn:Hlt.
  - split; [apply flt_fle, Hlt|]. destruct (eval_loss_val epoch); [discriminate|..]; reflexivity.
  - split; [apply fle_refl, Hn | exact Hn].
Qed.

Lemma loop_trace_not_nan epochs st s :
  is_nan (current_best_loss_val st) = false ->
  s ∈ st :: trace epochs st ->
  is_nan (current_best_loss_val s) = false.
Proof.
  revert st. induction epochs as [|e rest IH]; intros st Hn.
  - intros Hs. apply list_elem_of_singleton in Hs. subst s. exact Hn.
  - rewrite loop_trace_cons. intros Hs. apply elem_of_cons in Hs as [->|Hs]; [exact Hn|].
    pose proof (epoch_body_best_le e st Hn) as [_ Hn'].
    destruct (body e st).2.
    + apply list_elem_of_singleton in Hs. subst s. exact Hn'.
    + apply (IH _ Hn' Hs).
Qed.

(** The best loss along the states of the loop never goes up. *)
Lemma loop_trace_monotone len i j si sj :
  let states := initial_state :: trace (seq 0 len) initial_state in
  (i <= j)%nat -> states !! i = Some si -> states !! j = Some sj ->
  fle (current_best_loss_val sj) (current_best_loss_val si) = true.
Proof.
  intros states. revert sj. induction j as [|j IH]; intros sj Hij Hi Hj.
  - assert (i = 0%nat) as -> by lia. rewrite Hi in Hj. injection Hj as <-.
    apply fle_refl. apply (loop_trace_not_nan (seq 0 len) initial_state); [reflexivity|].
    apply list_elem_of_lookup. eauto.
  - destruct (decide (i = S j)) as [->|Hne].
    + rewrite Hi in Hj. injection Hj as <-.
      apply fle_refl. apply (loop_trace_not_nan (seq 0 len) initial_state); [reflexivity|].
      apply list_elem_of_lookup. eauto.
    + destruct (lookup_lt_is_Some_2 states j) as [s' Hs'].
      { apply lookup_lt_Some in Hj. lia. }
      specialize (IH s' ltac:(lia) Hi Hs').
      assert (Hstep : sj = (body (0 + j) s').1).
      { apply (loop_trace_step _ _ 0 len initial_state j s' sj Hs'). exact Hj. }
      assert (Hn : is_nan (current_best_loss_val s') = false).
      { apply (loop_trace_not_nan (seq 0 len) initial_state); [reflexivity|].
        apply list_elem_of_lookup. eauto. }
      destruct (epoch_body_best_le (0 + j) s' Hn) as [Hle _].
      rewrite <- Hstep in Hle. exact (fle_trans _ _ _ Hle IH).
Qed.
End TrainLoopInvariant.

(** With a cutoff of zero the loop runs up to and including the first epoch
    that does not improve. *)
Lemma cutoff_zero_first_non_improving eval_loss_val start len st k :
  patience st = 0 ->
  current_best_loss_val st = running_best eval_loss_val start ->
  (forall e, (start <= e < k)%nat -> improving eval_loss_val e = true) ->
  improving eval_loss_val k = false ->
  (start <= k < start + len)%nat ->
  length (loop_trace eval_loss_val 0 (seq start len) st) = S (k - start).
Proof.
  revert start st. induction len as [|len IH]; intros start st Hp Hb Himp Hk Hr; [lia|].
  simpl seq. rewrite loop_trace_cons.
  pose proof (epoch_body_patience eval_loss_val 0 start st) as Hp'.
  pose proof (epoch_body_best eval_loss_val 0 start st) as Hb'.
  rewrite Hb in Hp', Hb'. fold (improving eval_loss_val start) in Hp', Hb'.
  destruct (decide (start = k)) as [->|Hne].
  - rewrite Hk, Hp in Hp'.
    destruct (epoch_body eval_loss_val 0 k st).2 eqn:E.
    + cbn [length]. lia.
    + assert (0 < patience (epoch_body eval_loss_val 0 k st).1) as Hlt by lia.
      apply epoch_body_stop in Hlt. congruence.
  - rewrite (Himp start) in Hp', Hb' by lia.
    destruct (epoch_body eval_loss_val 0 start st).2 eqn:E.
    + apply epoch_body_stop in E. lia.
    + cbn [length]. rewrite (IH (S start)); [lia|exact Hp'| |intros e He; apply Himp; lia|exact Hk|lia].
      rewrite Hb'. simpl. unfold improving in Himp. rewrite (Himp start) by lia. reflexivity.
Qed.

(** What [_train_loop] returns: a missing-key error when no executed epoch
    had a validation loss below the sentinel, and otherwise the checkpoint
    path of an executed epoch whose loss no executed epoch beats. *)
Lemma train_loop_cases eval_loss_val PATIENCE_CUTOFF EPOCHS :
  let n := epochs_run eval_loss_val PATIENCE_CUTOFF EPOCHS in
  let st := for_epochs eval_loss_val PATIENCE_CUTOFF (seq 0 (Z.to_nat EPOCHS)) initial_state in
  (current_best_epoch_idx st = -1 /\
   _train_loop eval_loss_val PATIENCE_CUTOFF EPOCHS = Raise KeyError /\
   forall e, (e < n)%nat -> flt (eval_loss_val e) (Fin 10000) = false) \/
  (exists b, (b < n)%nat /\
     current_best_epoch_idx st = Z.of_nat b /\
     current_best_loss_val st = eval_loss_val b /\
     _train_loop eval_loss_val PATIENCE_CUTOFF EPOCHS = Ok (model_path b) /\
     flt (eval_loss_val b) (Fin 10000) = true /\
     forall e, (e < n)%nat -> flt (eval_loss_val e) (eval_loss_val b) = false).
Proof.
  intros n st.
  destruct (loop_invariant_final eval_loss_val PATIENCE_CUTOFF EPOCHS)
    as (Hpaths & Hsent & [(Hi & Hb & Hall)|(b & Hb & Hi & Hbl & Hb4 & Hall)]);
    fold n in Hpaths, Hall; fold st in Hpaths, Hsent, Hi; unfold _train_loop; fold st.
  - left. rewrite Hi, Hsent. auto.
  - right. exists b. fold n in Hb. fold st in Hbl.
    rewrite Hi, (Hpaths b Hb). auto 10.
Qed.

Lemma epochs_run_zero_iff eval_loss_val PATIENCE_CUTOFF EPOCHS :
  epochs_run eval_loss_val PATIENCE_CUTOFF EPOCHS = 0%nat <-> EPOCHS <= 0.
Proof.
  unfold epochs_run. split.
  - intros H. destruct (Z.to_nat EPOCHS) as [|n] eqn:E; [lia|].
    simpl seq in H. rewrite loop_trace_cons in H. discriminate.
  - intros H. replace (Z.to_nat EPOCHS) with 0%nat by lia. reflexivity.
Qed.

(** C4: the early-stopping block resets patience to 0 (and records the new
    best loss and epoch) when the validation loss is strictly below the best
    so far, and otherwise increments patience; an iteration ends in [break]
    exactly when the patience it leaves exceeds the cutoff; the loop goes on
    as long as that is not the case, and when it ends before its epochs are
    used up it ends on a patience above the cutoff; with a cutoff of 0 the
    loop executes exactly the epochs up to and including the first one that
    does not improve. *)
Theorem early_stopping_exact (eval_loss_val : nat -> pyfloat) (PATIENCE_CUTOFF : Z) :
  (forall epoch loss_val st,
      let st' := early_stopping epoch loss_val st in
      if flt loss_val (current_best_loss_val st)
      then patience st' = 0 /\
           current_best_loss_val st' = loss_val /\
           current_best_epoch_idx st' = Z.of_nat epoch
      else patience st' = patience st + 1 /\
           current_best_loss_val st' = current_best_loss_val st /\
           current_best_epoch_idx st' = current_best_epoch_idx st) /\
  (forall epoch st,
      (epoch_body eval_loss_val PATIENCE_CUTOFF epoch st).2 = true <->
      PATIENCE_CUTOFF < patience (epoch_body eval_loss_val PATIENCE_CUTOFF epoch st).1) /\
  (forall EPOCHS,
      let epochs := seq 0 (Z.to_nat EPOCHS) in
      let states := loop_trace eval_loss_val PATIENCE_CUTOFF epochs initial_state in
      for_epochs eval_loss_val PATIENCE_CUTOFF epochs initial_state
        = default initial_state (last states) /\
      (forall i s s',
          (initial_state :: states) !! i = Some s -> states !! i = Some s' ->
          s' = (epoch_body eval_loss_val PATIENCE_CUTOFF i s).1) /\
      (forall i s,
          states !! i = Some s -> (S i < length states)%nat ->
          patience s <= PATIENCE_CUTOFF) /\
      (length states <= Z.to_nat EPOCHS)%nat /\
      ((length states < Z.to_nat EPOCHS)%nat ->
       exists s, last states = Some s /\ PATIENCE_CUTOFF < patience s)) /\
  (forall EPOCHS k,
      (k < Z.to_nat EPOCHS)%nat ->
      (forall e, (e < k)%nat -> improving eval_loss_val e = true) ->
      improving eval_loss_val k = false ->
      epochs_run eval_loss_val 0 EPOCHS = S k).
Proof.
  split; [|split; [|split]].
  - intros epoch loss_val st. unfold early_stopping. cbv zeta.
    destruct (flt loss_val (current_best_loss_val st)); simpl; auto.
  - apply epoch_body_stop.
  - intros EPOCHS epochs states. split; [apply for_epochs_last|].
    split; [intros i s s'; apply (loop_trace_step _ _ 0)|].
    split; [apply loop_trace_continue|].
    pose proof (loop_trace_length eval_loss_val PATIENCE_CUTOFF epochs initial_state) as Hlen.
    pose proof (loop_trace_early eval_loss_val PATIENCE_CUTOFF epochs initial_state) as Hearly.
    unfold epochs in Hlen, Hearly. rewrite length_seq in Hlen, Hearly.
    split; [exact Hlen | exact Hearly].
  - intros EPOCHS k Hk Himp Hnon. unfold epochs_run.
    rewrite (cutoff_zero_first_non_improving eval_loss_val 0 _ initial_state k);
      [f_equal; lia | reflexivity | reflexivity | intros e He; apply Himp; lia
      | exact Hnon | lia].
Qed.

(** Validation losses 3, 2, 2.5, 4, 1 with a cutoff of 0: epoch 2 is the
    first that does not improve, so three epochs run. *)
Lemma early_stopping_exact_witness :
  let losses := fun e => nth e [Fin 3; Fin 2; Fin (5 # 2); Fin 4; Fin 1] NaN in
  (2 < Z.to_nat 5)%nat /\
  improving losses 0 = true /\ improving losses 1 = true /\
  improving losses 2 = false /\
  epochs_run losses 0 5 = 3%nat.
Proof.
  intros losses.
  assert (H2 : (2 < Z.to_nat 5)%nat) by (vm_compute; lia).
  assert (Himp : forall e, (e < 2)%nat -> improving losses e = true).
  { intros [|[|e]] He; [reflexivity | reflexivity | lia]. }
  assert (Hnon : improving losses 2 = false) by reflexivity.
  split; [exact H2|]. split; [reflexivity|]. split; [reflexivity|].
  split; [exact Hnon|].
  exact (proj2 (proj2 (proj2 (early_stopping_exact losses 0))) 5 2%nat H2 Himp Hnon).
Defined.

(** C5: along the states of the training loop the recorded best validation
    loss never increases; and when the loop returns a path, it is the
    checkpoint path of an executed epoch, the recorded best epoch, whose
    validation loss no executed epoch beats.  (It returns a path as soon as
    one executed epoch has a loss below the sentinel.) *)
Theorem best_loss_monotone_and_selected
    (eval_loss_val : nat -> pyfloat) (PATIENCE_CUTOFF EPOCHS : Z) :
  let epochs := seq 0 (Z.to_nat EPOCHS) in
  let states :=
    initial_state :: loop_trace eval_loss_val PATIENCE_CUTOFF epochs initial_state in
  let final := for_epochs eval_loss_val PATIENCE_CUTOFF epochs initial_state in
  let n := epochs_run eval_loss_val PATIENCE_CUTOFF EPOCHS in
  (forall i j si sj,
      (i <= j)%nat -> states !! i = Some si -> states !! j = Some sj ->
      fle (current_best_loss_val sj) (current_best_loss_val si) = true) /\
  (forall best_model_path,
      _train_loop eval_loss_val PATIENCE_CUTOFF EPOCHS = Ok best_model_path ->
      exists b, (b < n)%nat /\
        current_best_epoch_idx final = Z.of_nat b /\
        current_best_loss_val final = eval_loss_val b /\
        best_model_path = model_path b /\
        forall e, (e < n)%nat -> flt (eval_loss_val e) (eval_loss_val b) = false) /\
  ((exists e, (e < n)%nat /\ flt (eval_loss_val e) (Fin 10000) = true) ->
   exists best_model_path,
     _train_loop eval_loss_val PATIENCE_CUTOFF EPOCHS = Ok best_model_path).
Proof.
  intros epochs states final n.
  split; [apply loop_trace_monotone|].
  destruct (train_loop_cases eval_loss_val PATIENCE_CUTOFF EPOCHS)
    as [(Hi & Hres & Hall)|(b & Hb & Hi & Hbl & Hres & Hb4 & Hall)];
    fold n in Hall.
  - split.
    + intros p Hp. rewrite Hres in Hp. discriminate.
    + intros (e & He & Hlt). rewrite (Hall e He) in Hlt. discriminate.
  - split.
    + intros p Hp. rewrite Hres in Hp. injection Hp as <-.
      exists b. auto.
    + intros _. eauto.
Qed.

Lemma best_loss_monotone_and_selected_witness :
  let losses := fun e => nth e [Fin 3; Fin 2; Fin (5 # 2); Fin 4; Fin 1] NaN in
  _train_loop losses 1 5 = Ok "cavity_models/model_epoch_01.pt" /\
  exists b, (b < epochs_run losses 1 5)%nat /\
    current_best_epoch_idx (for_epochs losses 1 (seq 0 (Z.to_nat 5)) initial_state)
      = Z.of_nat b /\
    current_best_loss_val (for_epochs losses 1 (seq 0 (Z.to_nat 5)) initial_state)
      = losses b /\
    "cavity_models/model_epoch_01.pt" = model_path b /\
    forall e, (e < epochs_run losses 1 5)%nat -> flt (losses e) (losses b) = false.
Proof.
  intros losses.
  assert (H : _train_loop losses 1 5 = Ok "cavity_models/model_epoch_01.pt")
    by reflexivity.
  split; [exact H|].
  exact (proj1 (proj2 (best_loss_monotone_and_selected losses 1 5)) _ H).
Defined.

(** C9: when the training loop runs zero epochs, the best-epoch index is
    still the sentinel -1 and the lookup in the (empty) checkpoint map
    fails with a missing-key error; no path is returned. *)
Theorem zero_epochs_key_error (eval_loss_val : nat -> pyfloat) (PATIENCE_CUTOFF EPOCHS : Z) :
  epochs_run eval_loss_val PATIENCE_CUTOFF EPOCHS = 0%nat ->
  let final :=
    for_epochs eval_loss_val PATIENCE_CUTOFF (seq 0 (Z.to_nat EPOCHS)) initial_state in
  current_best_epoch_idx final = -1 /\
  epoch_idx_to_model_path final = ∅ /\
  _train_loop eval_loss_val PATIENCE_CUTOFF EPOCHS = Raise KeyError.
Proof.
  intros H0 final.
  assert (Hfin : final = initial_state).
  { apply epochs_run_zero_iff in H0. unfold final.
    replace (Z.to_nat EPOCHS) with 0%nat by lia. reflexivity. }
  split; [rewrite Hfin; reflexivity|]. split; [rewrite Hfin; reflexivity|].
  destruct (train_loop_cases eval_loss_val PATIENCE_CUTOFF EPOCHS)
    as [(_ & Hres & _)|(b & Hb & _)]; [exact Hres|].
  rewrite H0 in Hb. lia.
Qed.

Lemma zero_epochs_key_error_witness :
  epochs_run (fun _ => Fin 1) 3 0 = 0%nat /\
  current_best_epoch_idx
    (for_epochs (fun _ => Fin 1) 3 (seq 0 (Z.to_nat 0)) initial_state) = -1 /\
  epoch_idx_to_model_path
    (for_epochs (fun _ => Fin 1) 3 (seq 0 (Z.to_nat 0)) initial_state) = ∅ /\
  _train_loop (fun _ => Fin 1) 3 0 = Raise KeyError.
Proof.
  assert (H : epochs_run (fun _ => Fin 1) 3 0 = 0%nat) by reflexivity.
  split; [exact H|].
  exact (zero_epochs_key_error (fun _ => Fin 1) 3 0 H).
Defined.

(** C10: when every executed epoch has a validation loss that is NaN or at
    least the sentinel 1e4, the best-epoch index is never updated from -1
    and the final lookup fails with a missing-key error, however many
    epochs ran; and there are such runs with one epoch or more. *)
Theorem no_loss_below_sentinel_key_error :
  (forall (eval_loss_val : nat -> pyfloat) (PATIENCE_CUTOFF EPOCHS : Z),
      (forall e, (e < epochs_run eval_loss_val PATIENCE_CUTOFF EPOCHS)%nat ->
                 is_nan (eval_loss_val e) = true \/
                 fle (Fin 10000) (eval_loss_val e) = true) ->
      current_best_epoch_idx
        (for_epochs eval_loss_val PATIENCE_CUTOFF (seq 0 (Z.to_nat EPOCHS)) initial_state)
        = -1 /\
      _train_loop eval_loss_val PATIENCE_CUTOFF EPOCHS = Raise KeyError) /\
  (exists (eval_loss_val : nat -> pyfloat) (PATIENCE_CUTOFF EPOCHS : Z),
      (1 <= epochs_run eval_loss_val PATIENCE_CUTOFF EPOCHS)%nat /\
      _train_loop eval_loss_val PATIENCE_CUTOFF EPOCHS = Raise KeyError).
Proof.
  split.
  - intros eval_loss_val PATIENCE_CUTOFF EPOCHS Hall.
    destruct (train_loop_cases eval_loss_val PATIENCE_CUTOFF EPOCHS)
      as [(Hi & Hres & _)|(b & Hb & _ & _ & _ & Hb4 & _)]; [auto|].
    apply Hall in Hb. apply (flt_false_iff _ (Fin 10000)) in Hb; [|reflexivity].
    congruence.
  - exists (fun _ => NaN), 2, 5. split; [vm_compute; lia | reflexivity].
Qed.

(** Three epochs run (cutoff 2) with losses NaN, 1e4 and 20000. *)
Lemma no_loss_below_sentinel_key_error_witness :
  let losses := fun e => nth e [NaN; Fin 10000; Fin 20000] NaN in
  epochs_run losses 2 5 = 3%nat /\
  current_best_epoch_idx (for_epochs losses 2 (seq 0 (Z.to_nat 5)) initial_state) = -1 /\
  _train_loop losses 2 5 = Raise KeyError.
Proof.
  intros losses. split; [reflexivity|].
  apply (proj1 no_loss_below_sentinel_key_error losses 2 5).
  intros e He. change (epochs_run losses 2 5) with 3%nat in He.
  destruct e as [|[|[|e]]]; [left; reflexivity | right; reflexivity
                            | right; reflexivity | lia].
Defined.

(** ** Strings *)

Lemma chars_app s t : chars (s +:+ t) = chars s ++ chars t.
Proof. induction s as [|c s IH]; [reflexivity|]. simpl. rewrite IH. reflexivity. Qed.

Lemma of_chars_chars s : of_chars (chars s) = s.
Proof. induction s as [|c s IH]; [reflexivity|]. simpl. rewrite IH. reflexivity. Qed.

Lemma slice_bound_neg len i : i < 0 -> 0 <= i + len -> slice_bound len i = i + len.
Proof.
  intros Hi Hlen. unfold slice_bound. cbv zeta.
  destruct (Z.ltb_spec i 0);
    repeat match goal with |- context [?a <? ?b] => destruct (Z.ltb_spec a b) end; lia.
Qed.

(** [s[1:-1]] drops the first and the last character. *)
Lemma str_slice_middle wt mid mt :
  str_slice (String wt (mid +:+ String mt "")) 1 (-1) = mid.
Proof.
  unfold str_slice, py_slice. cbn [chars]. rewrite chars_app. cbn [chars].
  cbn [length]. rewrite length_app. cbn [length].
  set (n := length (chars mid)).
  rewrite (slice_bound_nonneg _ 1), (slice_bound_neg _ (-1)) by lia.
  rewrite Z.min_l by lia.
  replace (Z.to_nat (-1 + Z.of_nat (S (n + 1)) - 1)) with n by lia.
  change (Z.to_nat 1) with 1%nat. cbn [drop].
  subst n. rewrite drop_0, take_app_length. apply of_chars_chars.
Qed.

Lemma append_cons c s t : String c s +:+ t = String c (s +:+ t).
Proof. reflexivity. Qed.

Lemma startswith_spec s p : startswith s p = true <-> exists post, s = p +:+ post.
Proof.
  revert s. induction p as [|a p IH]; intros s.
  - destruct s; simpl; split; eauto.
  - destruct s as [|b s]; simpl.
    + split; [discriminate | intros [post H]; discriminate].
    + destruct (decide (a = b)) as [->|Hne].
      * rewrite IH. split; intros [post H]; exists post;
          rewrite append_cons in *; congruence.
      * split; [discriminate | intros [post H]; rewrite append_cons in H; congruence].
Qed.

Lemma str_in_nil needle : str_in needle "" = startswith "" needle.
Proof. apply orb_false_r. Qed.

Lemma str_in_cons needle c hay :
  str_in needle (String c hay) = startswith (String c hay) needle || str_in needle hay.
Proof. reflexivity. Qed.

(** Python's [in] on strings is the specification's containment. *)
Lemma str_in_spec needle hay : str_in needle hay = true <-> occurs_in needle hay.
Proof.
  unfold occurs_in. split.
  - induction hay as [|c hay IH].
    + rewrite str_in_nil. intros H.
      apply startswith_spec in H as [post H]. exists "", post. exact H.
    + rewrite str_in_cons, orb_true_iff. intros [H|H].
      * apply startswith_spec in H as [post H]. exists "", post. exact H.
      * destruct (IH H) as (pre & post & ->). exists (String c pre), post. reflexivity.
  - intros (pre & post & ->). induction pre as [|c pre IH].
    + assert (H : startswith (needle +:+ post) needle = true)
        by (apply startswith_spec; eauto).
      change ("" +:+ needle +:+ post) with (needle +:+ post).
      destruct (needle +:+ post).
      * rewrite str_in_nil. exact H.
      * rewrite str_in_cons, orb_true_iff. left. exact H.
    + rewrite append_cons, str_in_cons, orb_true_iff. right. exact IH.
Qed.

(** ** Stage A *)

(** C2: for a row whose variant has a first and a last character, the
    lookup key is the concatenation of pdbid, chain, an underscore, the
    characters of the variant between its first and its last one, and the
    variant's first (wild-type) letter; for variant "A123G", pdbid "1ABC"
    and chain "A" it is "1ABCA_123A". *)
Theorem resenv_key_format :
  (forall (pdb chain : string) (wt : ascii) (position : string) (mt : ascii)
          (others : list cell),
      resenv_key (DdgRow pdb chain (String wt (position +:+ String mt "")) others)
      = Ok (pdb +:+ chain +:+ "_" +:+ position +:+ String wt "")) /\
  resenv_key (DdgRow "1ABC" "A" "A123G" []) = Ok "1ABCA_123A".
Proof.
  split; [|reflexivity].
  intros pdb chain wt position mt others. unfold resenv_key. cbn [variant pdbid chainid].
  rewrite str_slice_middle. reflexivity.
Qed.

(** C8: a data-set name that contains "symmetric" anywhere is looked up in
    the data set stored under "symmetric"; every other name is looked up in
    the data set stored under the name itself. *)
Theorem symmetric_key_normalization {ResidueEnvironment : Type}
    (resenv_datasets_look_up : gmap string (gmap string ResidueEnvironment))
    (ddg_data_key resenv_key : string) :
  (occurs_in "symmetric" ddg_data_key ->
   ddg_data_key_adhoc_fix ddg_data_key = "symmetric" /\
   match_resenv resenv_datasets_look_up ddg_data_key resenv_key
   = (resenv_datasets_look_up !! "symmetric") ≫= (fun dataset => dataset !! resenv_key)) /\
  (~ occurs_in "symmetric" ddg_data_key ->
   ddg_data_key_adhoc_fix ddg_data_key = ddg_data_key /\
   match_resenv resenv_datasets_look_up ddg_data_key resenv_key
   = (resenv_datasets_look_up !! ddg_data_key) ≫= (fun dataset => dataset !! resenv_key)).
Proof.
  unfold match_resenv, ddg_data_key_adhoc_fix. split; intros H.
  - apply str_in_spec in H. rewrite H. split; reflexivity.
  - destruct (str_in "symmetric" ddg_data_key) eqn:E; [|split; reflexivity].
    apply str_in_spec in E. contradiction.
Qed.

(** The name "symmetric_direct" has a data set of its own in the lookup,
    and is resolved against the one under "symmetric" all the same; "dms"
    is resolved against its own. *)
Lemma symmetric_key_normalization_witness :
  let look_up : gmap string (gmap string nat) :=
    {[ "symmetric" := {[ "1ABCA_123A" := 7%nat ]};
       "symmetric_direct" := {[ "1ABCA_123A" := 8%nat ]};
       "dms" := {[ "1ABCA_123A" := 9%nat ]} ]} in
  occurs_in "symmetric" "symmetric_direct" /\
  ~ occurs_in "symmetric" "dms" /\
  match_resenv look_up "symmetric_direct" "1ABCA_123A" = Some 7%nat /\
  match_resenv look_up "dms" "1ABCA_123A" = Some 9%nat.
Proof.
  intros look_up.
  assert (H1 : occurs_in "symmetric" "symmetric_direct")
    by (exists "", "_direct"; reflexivity).
  assert (H2 : ~ occurs_in "symmetric" "dms").
  { intros H. apply str_in_spec in H. vm_compute in H. discriminate. }
  split; [exact H1|]. split; [exact H2|]. split.
  - rewrite (proj2 (proj1 (symmetric_key_normalization look_up "symmetric_direct"
                              "1ABCA_123A") H1)).
    reflexivity.
  - rewrite (proj2 (proj2 (symmetric_key_normalization look_up "dms" "1ABCA_123A") H2)).
    reflexivity.
Defined.

Lemma traverse_Forall2 {A B} (f : A -> pyresult B) l bs :
  traverse f l = Ok bs -> Forall2 (fun a b => f a = Ok b) l bs.
Proof.
  revert bs. induction l as [|a l IH]; intros bs.
  - intros [= <-]. constructor.
  - cbn [traverse]. intros H.
    apply bind_Ok in H as (b & Hb & H). apply bind_Ok in H as (bs' & Hbs & H).
    injection H as <-. constructor; [exact Hb | apply IH, Hbs].
Qed.

Lemma index_of_lt c l i : index_of c l = Some i -> (i < length l)%nat.
Proof.
  revert i. induction l as [|x l IH]; intros i; [discriminate|].
  simpl. destruct (decide (x = c)); [intros [= <-]; lia|].
  destruct (index_of c l) as [j|]; [|discriminate].
  intros [= <-]. specialize (IH j eq_refl). lia.
Qed.

(** The encoding maps into [[0, 19]]. *)
Lemma one_to_index_range c i : one_to_index c = Ok i -> (i < 20)%nat.
Proof.
  unfold one_to_index. destruct (index_of c (chars aa1)) as [j|] eqn:E; [|discriminate].
  intros [= <-]. apply index_of_lt in E. exact E.
Qed.

Section StageAFacts.
Context {ResidueEnvironment : Type}.
Variable resenv_datasets_look_up : gmap string (gmap string ResidueEnvironment).
Variable ddg_data_key : string.

Abbreviation matched := (fun (row : ddg_row) (e : option ResidueEnvironment) =>
  exists key, resenv_key row = Ok key /\
              e = match_resenv resenv_datasets_look_up ddg_data_key key).

(** What a successful run of stage A on one data set went through. *)
Lemma populate_df_with_resenvs_inv df out :
  populate_df_with_resenvs resenv_datasets_look_up ddg_data_key df = Ok out ->
  exists resenvs wt_idxs mt_idxs,
    Forall2 matched df resenvs /\
    Forall2 (fun (k : ddg_row * ResidueEnvironment) w =>
               exists c, str_first (variant k.1) = Ok c /\ one_to_index c = Ok w)
            (dropna (zip df resenvs)) wt_idxs /\
    Forall2 (fun (k : ddg_row * ResidueEnvironment) m =>
               exists c, str_last (variant k.1) = Ok c /\ one_to_index c = Ok m)
            (dropna (zip df resenvs)) mt_idxs /\
    out = zip_with (fun '(row, e) '(wt, mt) => MatchedRow row e wt mt)
                   (dropna (zip df resenvs)) (zip wt_idxs mt_idxs).
Proof.
  unfold populate_df_with_resenvs. intros H.
  apply bind_Ok in H as (resenvs & H1 & H). cbv zeta in H.
  destruct (dropna (zip df resenvs)) as [|k0 kept0] eqn:Hkept; [discriminate|].
  apply bind_Ok in H as (wt_idxs & H2 & H).
  apply bind_Ok in H as (mt_idxs & H3 & H).
  injection H as <-. exists resenvs, wt_idxs, mt_idxs. rewrite Hkept.
  apply traverse_Forall2 in H1, H2, H3.
  split; [|split; [|split; [|reflexivity]]].
  - eapply Forall2_impl; [exact H1|]. intros row e Hr. simpl in Hr.
    apply bind_Ok in Hr as (key & Hk & Hr). injection Hr as <-. eauto.
  - eapply Forall2_impl; [exact H2|]. intros [row e] w Hr. simpl in Hr.
    apply bind_Ok in Hr as (c & Hc & Hr). eauto.
  - eapply Forall2_impl; [exact H3|]. intros [row e] m Hr. simpl in Hr.
    apply bind_Ok in Hr as (c & Hc & Hr). eauto.
Qed.

Lemma zip_with_matched_length (kept : list (ddg_row * ResidueEnvironment)) wt_idxs mt_idxs :
  length wt_idxs = length kept -> length mt_idxs = length kept ->
  length (zip_with (fun '(row, e) '(wt, mt) => MatchedRow row e wt mt)
                   kept (zip wt_idxs mt_idxs)) = length kept.
Proof.
  intros Hw Hm. rewrite length_zip_with, length_zip_with. lia.
Qed.



Lemma dropna_cons_kept (row : ddg_row) (env : ResidueEnvironment) df :
  forallb (fun c => negb (isna c)) (other_columns row) = true ->
  dropna ((row, Some env) :: df) = (row, env) :: dropna df.
Proof. intros H. unfold dropna. simpl. rewrite H. reflexivity. Qed.

Lemma dropna_cons_miss (row : ddg_row) (df : list (ddg_row * option ResidueEnvironment)) :
  dropna ((row, None) :: df) = dropna df.
Proof.
  unfold dropna. simpl.
  destruct (forallb (fun c => negb (isna c)) (other_columns row)); reflexivity.
Qed.

(** A row with a missing cell is dropped, matched or not. *)
Lemma dropna_cons_missing_cell (row : ddg_row) e
    (df : list (ddg_row * option ResidueEnvironment)) :
  forallb (fun c => negb (isna c)) (other_columns row) = false ->
  dropna ((row, e) :: df) = dropna df.
Proof. intros H. unfold dropna. simpl. rewrite H. reflexivity. Qed.

(** On a table without missing cells, [dropna] removes the lookup misses
    and nothing else. *)
Lemma dropna_count df resenvs :
  Forall (fun row => forallb (fun c => negb (isna c)) (other_columns row) = true) df ->
  Forall2 matched df resenvs ->
  (length (dropna (zip df resenvs)) +
   length (filter (fun row => lookup_miss resenv_datasets_look_up ddg_data_key row = true) df)
   = length df)%nat.
Proof.
  intros Hclean Hm. induction Hm as [|row e df resenvs (key & Hk & He) Hm IH].
  - reflexivity.
  - apply Forall_cons in Hclean as [Hrow Hclean]. specialize (IH Hclean).
    assert (Hmiss : lookup_miss resenv_datasets_look_up ddg_data_key row
                    = match e with Some _ => false | None => true end).
    { unfold lookup_miss. rewrite Hk, <- He. reflexivity. }
    rewrite filter_cons. cbn [zip zip_with].
    destruct e as [env|]; case_decide; try congruence.
    + rewrite dropna_cons_kept by exact Hrow. cbn [length]. fold (zip df resenvs). lia.
    + rewrite dropna_cons_miss. cbn [length]. fold (zip df resenvs). lia.
Qed.

(** On a table of N rows without missing cells, K of which miss the
    lookup, stage A leaves N - K rows. *)
Lemma populate_df_with_resenvs_count df out :
  Forall (fun row => forallb (fun c => negb (isna c)) (other_columns row) = true) df ->
  populate_df_with_resenvs resenv_datasets_look_up ddg_data_key df = Ok out ->
  length out =
    (length df -
     length (filter (fun row => lookup_miss resenv_datasets_look_up ddg_data_key row = true) df))%nat.
Proof.
  intros Hclean H. apply populate_df_with_resenvs_inv in H
    as (resenvs & wt_idxs & mt_idxs & Hmatch & Hw & Hm & ->).
  apply Forall2_length in Hw, Hm.
  rewrite zip_with_matched_length by congruence.
  pose proof (dropna_count df resenvs Hclean Hmatch). lia.
Qed.
End StageAFacts.

(** C3, on the code: [dropna] is called on the whole frame, so a row whose
    lookup hits is dropped as well when any other cell of it is missing.
    Three rows of data set "dms": the first hits the lookup and has no
    measured value (NaN), the second misses the lookup, the third hits.
    N = 3 and K = 1, and one row is left, not two. *)
Theorem stage_a_drops_matched_row_with_missing_cell :
  let look_up : gmap string (gmap string nat) :=
    {[ "dms" := {[ "1ABCA_123A" := 5%nat ]} ]} in
  let row1 := DdgRow "1ABC" "A" "A123G" [CNum NaN] in
  let row2 := DdgRow "1ABC" "A" "A124G" [CNum (Fin (3 # 2))] in
  let row3 := DdgRow "1ABC" "A" "A123V" [CNum (Fin (7 # 10))] in
  let df := [row1; row2; row3] in
  lookup_miss look_up "dms" row1 = false /\
  lookup_miss look_up "dms" row2 = true /\
  lookup_miss look_up "dms" row3 = false /\
  _populate_dfs_with_resenvs [("dms", df)] look_up
  = Ok [("dms", [MatchedRow row3 5%nat 0 17])].
Proof. repeat split; reflexivity. Qed.

(** ** Stage B *)






(** * Further properties *)

(** ** Training loop: bookkeeping *)

Lemma flt_below_strict l b e :
  flt l b = true -> flt e b = false -> is_nan e = true \/ flt l e = true.
Proof.
  destruct l as [| |x|], b as [| |y|], e as [| |z|]; simpl; try discriminate; auto.
  rewrite <- not_true_iff_false, !Qltb_lt. intros Hxy Hzy. right.
  apply (Qlt_le_trans _ _ _ Hxy). apply Qnot_lt_le, Hzy.
Qed.

(** A property of the loop state that every iteration carries one epoch
    further holds of the state the loop leaves. *)
Lemma for_epochs_invariant (P : nat -> loop_state -> Prop) eval_loss_val PATIENCE_CUTOFF :
  (forall n st, P n st -> P (S n) (epoch_body eval_loss_val PATIENCE_CUTOFF n st).1) ->
  forall start len st,
    P start st ->
    P (start + length (loop_trace eval_loss_val PATIENCE_CUTOFF (seq start len) st))%nat
      (for_epochs eval_loss_val PATIENCE_CUTOFF (seq start len) st).
Proof.
  intros Hstep start len. revert start. induction len as [|len IH]; intros start st HP.
  - simpl. rewrite Nat.add_0_r. exact HP.
  - simpl seq. rewrite loop_trace_cons, for_epochs_cons.
    pose proof (Hstep _ _ HP) as HP'.
    destruct (epoch_body eval_loss_val PATIENCE_CUTOFF start st).2; cbn [length].
    + replace (start + 1)%nat with (S start) by lia. exact HP'.
    + specialize (IH _ _ HP').
      match goal with
      | H : P (?a + ?l)%nat ?s |- P ?n ?s => replace n with (a + l)%nat by lia; exact H
      end.
Qed.

Lemma loop_bookkeeping_step eval_loss_val PATIENCE_CUTOFF n st :
  loop_bookkeeping eval_loss_val n st ->
  loop_bookkeeping eval_loss_val (S n) (epoch_body eval_loss_val PATIENCE_CUTOFF n st).1.
Proof.
  intros (HI & Hp & Hidx & Hkeys & Hfirst).
  split; [apply loop_invariant_step, HI|].
  rewrite epoch_body_patience, epoch_body_idx, epoch_body_paths.
  destruct HI as (_ & _ & Hbest).
  split; [|split; [|split]].
  - destruct (flt _ _); lia.
  - destruct (flt _ _); lia.
  - intros k p Hk. destruct (decide (k = Z.of_nat n)) as [->|Hne].
    + rewrite lookup_insert_eq in Hk. injection Hk as <-.
      rewrite Nat2Z.id. split; [lia | reflexivity].
    + rewrite lookup_insert_ne in Hk by congruence.
      destruct (Hkeys k p Hk) as [Hr ->]. split; [lia | reflexivity].
  - destruct (flt (eval_loss_val n) (current_best_loss_val st)) eqn:Hlt.
    + intros b e Hb He. apply Nat2Z.inj in Hb. subst b.
      destruct Hbest as [(_ & Hb & Hall)|(b & Hb & _ & Hbl & _ & Hall)].
      * rewrite Hb in Hlt. apply (flt_below_strict _ _ _ Hlt), Hall, He.
      * rewrite Hbl in Hlt. apply (flt_below_strict _ _ _ Hlt), Hall, He.
    + exact Hfirst.
Qed.

Lemma loop_bookkeeping_final eval_loss_val PATIENCE_CUTOFF EPOCHS :
  loop_bookkeeping eval_loss_val
    (epochs_run eval_loss_val PATIENCE_CUTOFF EPOCHS)
    (for_epochs eval_loss_val PATIENCE_CUTOFF (seq 0 (Z.to_nat EPOCHS)) initial_state).
Proof.
  apply (for_epochs_invariant (loop_bookkeeping eval_loss_val) _ _
           (loop_bookkeeping_step eval_loss_val PATIENCE_CUTOFF) 0).
  split; [apply loop_invariant_initial|].
  split; [reflexivity|]. split; [simpl; lia|]. split.
  - intros k p Hk. unfold initial_state in Hk. cbn [epoch_idx_to_model_path] in Hk.
    rewrite lookup_empty in Hk. discriminate.
  - intros b e Hb. unfold initial_state in Hb. cbn [current_best_epoch_idx] in Hb. lia.
Qed.

(** X1: when [_train_loop] ends, patience is the number of epochs that ran
    after the recorded best epoch (all the epochs that ran when the best
    epoch is still the sentinel -1). *)
Theorem patience_counts_epochs_since_best
    (eval_loss_val : nat -> pyfloat) (PATIENCE_CUTOFF EPOCHS : Z) :
  let final :=
    for_epochs eval_loss_val PATIENCE_CUTOFF (seq 0 (Z.to_nat EPOCHS)) initial_state in
  let n := epochs_run eval_loss_val PATIENCE_CUTOFF EPOCHS in
  patience final = Z.of_nat n - 1 - current_best_epoch_idx final /\
  -1 <= current_best_epoch_idx final < Z.of_nat n.
Proof.
  intros final n.
  destruct (loop_bookkeeping_final eval_loss_val PATIENCE_CUTOFF EPOCHS)
    as (_ & Hp & Hidx & _). auto.
Qed.

(** X2: when [_train_loop] ends, the checkpoint map holds exactly the
    epochs that ran, each under its own index and with the path of its own
    checkpoint file. *)
Theorem checkpoint_map_is_executed_epochs
    (eval_loss_val : nat -> pyfloat) (PATIENCE_CUTOFF EPOCHS : Z) (k : Z) (p : string) :
  let final :=
    for_epochs eval_loss_val PATIENCE_CUTOFF (seq 0 (Z.to_nat EPOCHS)) initial_state in
  let n := epochs_run eval_loss_val PATIENCE_CUTOFF EPOCHS in
  epoch_idx_to_model_path final !! k = Some p <->
  0 <= k < Z.of_nat n /\ p = model_path (Z.to_nat k).
Proof.
  intros final n.
  destruct (loop_bookkeeping_final eval_loss_val PATIENCE_CUTOFF EPOCHS)
    as ((Hpaths & _) & _ & _ & Hkeys & _).
  split; [apply Hkeys|].
  intros [Hk ->]. fold final n in Hpaths.
  rewrite <- (Hpaths (Z.to_nat k)) by lia. f_equal. lia.
Qed.

(** X3: the path [_train_loop] returns belongs to the first epoch that
    reached the lowest validation loss: its loss is below the sentinel 1e4,
    no executed epoch has a lower one, and every earlier epoch has a
    strictly higher one (or NaN); on a tie the earlier epoch wins. *)
Theorem best_epoch_is_first_minimum
    (eval_loss_val : nat -> pyfloat) (PATIENCE_CUTOFF EPOCHS : Z) (best_model_path : string) :
  _train_loop eval_loss_val PATIENCE_CUTOFF EPOCHS = Ok best_model_path ->
  exists b,
    best_model_path = model_path b /\
    (b < epochs_run eval_loss_val PATIENCE_CUTOFF EPOCHS)%nat /\
    flt (eval_loss_val b) (Fin 10000) = true /\
    (forall e, (e < epochs_run eval_loss_val PATIENCE_CUTOFF EPOCHS)%nat ->
               flt (eval_loss_val e) (eval_loss_val b) = false) /\
    (forall e, (e < b)%nat ->
               is_nan (eval_loss_val e) = true \/
               flt (eval_loss_val b) (eval_loss_val e) = true).
Proof.
  intros Hrun.
  destruct (loop_bookkeeping_final eval_loss_val PATIENCE_CUTOFF EPOCHS)
    as (_ & _ & _ & _ & Hfirst).
  destruct (train_loop_cases eval_loss_val PATIENCE_CUTOFF EPOCHS)
    as [(_ & Hres & _)|(b & Hb & Hi & _ & Hres & Hb4 & Hall)].
  - rewrite Hres in Hrun. discriminate.
  - rewrite Hres in Hrun. injection Hrun as <-.
    exists b. split; [reflexivity|]. split; [exact Hb|]. split; [exact Hb4|].
    split; [exact Hall|]. intros e He. exact (Hfirst b e Hi He).
Qed.

(** Losses 3, 2, 2, 5: epochs 1 and 2 tie, and epoch 1 is returned. *)
Lemma best_epoch_is_first_minimum_witness :
  let losses := fun e => nth e [Fin 3; Fin 2; Fin 2; Fin 5] NaN in
  _train_loop losses 5 4 = Ok "cavity_models/model_epoch_01.pt" /\
  exists b,
    "cavity_models/model_epoch_01.pt" = model_path b /\
    (b < epochs_run losses 5 4)%nat /\
    flt (losses b) (Fin 10000) = true /\
    (forall e, (e < epochs_run losses 5 4)%nat -> flt (losses e) (losses b) = false) /\
    (forall e, (e < b)%nat ->
               is_nan (losses e) = true \/ flt (losses b) (losses e) = true).
Proof.
  intros losses.
  assert (H : _train_loop losses 5 4 = Ok "cavity_models/model_epoch_01.pt")
    by reflexivity.
  split; [exact H|].
  exact (best_epoch_is_first_minimum losses 5 4 _ H).
Defined.

(** ** Training loop: when early stopping can fire *)

(** X4: with a negative patience cutoff the loop runs one epoch and stops,
    whatever the validation losses. *)
Theorem negative_cutoff_runs_one_epoch
    (eval_loss_val : nat -> pyfloat) (PATIENCE_CUTOFF EPOCHS : Z) :
  PATIENCE_CUTOFF < 0 -> 1 <= EPOCHS ->
  epochs_run eval_loss_val PATIENCE_CUTOFF EPOCHS = 1%nat.
Proof.
  intros HC HE. unfold epochs_run.
  destruct (Z.to_nat EPOCHS) as [|m] eqn:E; [lia|].
  simpl seq. rewrite loop_trace_cons.
  assert (Hstop : (epoch_body eval_loss_val PATIENCE_CUTOFF 0 initial_state).2 = true).
  { apply epoch_body_stop. rewrite epoch_body_patience.
    destruct (flt _ _); simpl; lia. }
  rewrite Hstop. reflexivity.
Qed.

Lemma negative_cutoff_runs_one_epoch_witness :
  -1 < 0 /\ 1 <= 10 /\ epochs_run (fun e => Fin (1 # Pos.of_nat (S e))) (-1) 10 = 1%nat.
Proof.
  assert (H1 : -1 < 0) by lia. assert (H2 : 1 <= 10) by lia.
  split; [exact H1|]. split; [exact H2|].
  exact (negative_cutoff_runs_one_epoch (fun e => Fin (1 # Pos.of_nat (S e))) (-1) 10 H1 H2).
Defined.

(** X5: when the loop ends on a patience above a non-negative cutoff, that
    patience is exactly cutoff + 1: the loop stops cutoff + 1 epochs after
    the best epoch, and never before cutoff + 1 epochs have run. *)
Theorem early_stop_is_sharp
    (eval_loss_val : nat -> pyfloat) (PATIENCE_CUTOFF EPOCHS : Z) :
  let final :=
    for_epochs eval_loss_val PATIENCE_CUTOFF (seq 0 (Z.to_nat EPOCHS)) initial_state in
  let n := epochs_run eval_loss_val PATIENCE_CUTOFF EPOCHS in
  0 <= PATIENCE_CUTOFF ->
  PATIENCE_CUTOFF < patience final ->
  patience final = PATIENCE_CUTOFF + 1 /\
  current_best_epoch_idx final = Z.of_nat n - PATIENCE_CUTOFF - 2 /\
  PATIENCE_CUTOFF + 1 <= Z.of_nat n.
Proof.
  intros final n HC Hbreak.
  destruct (loop_bookkeeping_final eval_loss_val PATIENCE_CUTOFF EPOCHS)
    as (_ & Hp & Hidx & _). fold final n in Hp, Hidx.
  assert (Hsharp : patience final = PATIENCE_CUTOFF + 1); [|lia].
  set (tr := loop_trace eval_loss_val PATIENCE_CUTOFF (seq 0 (Z.to_nat EPOCHS)) initial_state).
  assert (Hfin : final = default initial_state (last tr)) by apply for_epochs_last.
  assert (Hn : n = length tr) by reflexivity.
  destruct (last tr) as [s'|] eqn:Hlast.
  2:{ rewrite Hfin in Hbreak. simpl in Hbreak. lia. }
  simpl in Hfin. subst s'. rewrite last_lookup in Hlast.
  assert (Hpos : (0 < length tr)%nat).
  { apply lookup_lt_Some in Hlast. lia. }
  destruct (lookup_lt_is_Some_2 (initial_state :: tr) (Nat.pred (length tr))) as [s Hs].
  { cbn [length]. lia. }
  pose proof (loop_trace_step eval_loss_val PATIENCE_CUTOFF 0 _ _ _ _ _ Hs Hlast) as Hstep.
  assert (Hprev : patience s <= PATIENCE_CUTOFF).
  { destruct (Nat.pred (length tr)) as [|i] eqn:Ei.
    - injection Hs as <-. simpl. exact HC.
    - rewrite lookup_cons in Hs.
      apply (loop_trace_continue eval_loss_val PATIENCE_CUTOFF _ _ i s Hs). fold tr. lia. }
  rewrite Hstep, epoch_body_patience in Hbreak |- *.
  destruct (flt _ _); lia.
Qed.

(** Losses 3, 2, 2.5, 4, 1 with a cutoff of 1: the loop stops after epoch 3
    with patience 2, two epochs after the best epoch 1. *)
Lemma early_stop_is_sharp_witness :
  let losses := fun e => nth e [Fin 3; Fin 2; Fin (5 # 2); Fin 4; Fin 1] NaN in
  0 <= 1 /\
  1 < patience (for_epochs losses 1 (seq 0 (Z.to_nat 5)) initial_state) /\
  patience (for_epochs losses 1 (seq 0 (Z.to_nat 5)) initial_state) = 1 + 1 /\
  current_best_epoch_idx (for_epochs losses 1 (seq 0 (Z.to_nat 5)) initial_state)
    = Z.of_nat (epochs_run losses 1 5) - 1 - 2 /\
  1 + 1 <= Z.of_nat (epochs_run losses 1 5).
Proof.
  intros losses.
  assert (H1 : 0 <= 1) by lia.
  assert (H2 : 1 < patience (for_epochs losses 1 (seq 0 (Z.to_nat 5)) initial_state))
    by (vm_compute; reflexivity).
  split; [exact H1|]. split; [exact H2|].
  exact (early_stop_is_sharp losses 1 5 H1 H2).
Defined.

(** X6: when the number of epochs is at most cutoff + 1, early stopping
    cannot shorten the run: every epoch is executed. *)
Theorem no_early_stop_within_cutoff
    (eval_loss_val : nat -> pyfloat) (PATIENCE_CUTOFF EPOCHS : Z) :
  EPOCHS <= PATIENCE_CUTOFF + 1 ->
  epochs_run eval_loss_val PATIENCE_CUTOFF EPOCHS = Z.to_nat EPOCHS.
Proof.
  intros HE.
  set (tr := loop_trace eval_loss_val PATIENCE_CUTOFF (seq 0 (Z.to_nat EPOCHS)) initial_state).
  pose proof (loop_trace_length eval_loss_val PATIENCE_CUTOFF
                (seq 0 (Z.to_nat EPOCHS)) initial_state) as Hle.
  pose proof (loop_trace_early eval_loss_val PATIENCE_CUTOFF
                (seq 0 (Z.to_nat EPOCHS)) initial_state) as Hearly.
  rewrite length_seq in Hle, Hearly. fold tr in Hle, Hearly.
  change (epochs_run eval_loss_val PATIENCE_CUTOFF EPOCHS) with (length tr).
  destruct (decide (length tr = Z.to_nat EPOCHS)) as [|Hne]; [assumption|].
  destruct (Hearly ltac:(lia)) as (s & Hlast & Hs).
  destruct (loop_bookkeeping_final eval_loss_val PATIENCE_CUTOFF EPOCHS)
    as (_ & Hp & Hidx & _).
  rewrite for_epochs_last in Hp, Hidx. fold tr in Hp, Hidx.
  rewrite Hlast in Hp, Hidx. simpl in Hp, Hidx.
  change (epochs_run eval_loss_val PATIENCE_CUTOFF EPOCHS) with (length tr) in Hp, Hidx.
  lia.
Qed.

(** Ever worse losses and a cutoff of 4: all five epochs run. *)
Lemma no_early_stop_within_cutoff_witness :
  5 <= 4 + 1 /\ epochs_run (fun e => Fin (Z.of_nat e # 1)) 4 5 = Z.to_nat 5.
Proof.
  assert (H : 5 <= 4 + 1) by lia.
  split; [exact H|].
  exact (no_early_stop_within_cutoff (fun e => Fin (Z.of_nat e # 1)) 4 5 H).
Defined.

(** ** Checkpoint paths *)

Lemma append_inv_head p a b : p +:+ a = p +:+ b -> a = b.
Proof.
  induction p as [|c p IH]; [auto|]. rewrite !append_cons. intros [= H]. auto.
Qed.

Lemma chars_inj a b : chars a = chars b -> a = b.
Proof. intros H. rewrite <- (of_chars_chars a), <- (of_chars_chars b), H. reflexivity. Qed.

Lemma append_inv_tail a b t : a +:+ t = b +:+ t -> a = b.
Proof.
  intros H. apply chars_inj. apply (f_equal chars) in H.
  rewrite !chars_app in H. exact (app_inv_tail _ _ _ H).
Qed.

(** The decimal digits of a positive number do not start with 0. *)
Lemma pretty_N_go_no_leading_zero x s t : (0 < x)%N -> pretty_N_go x s <> String "0" t.
Proof.
  revert s. induction (N.lt_wf_0 x) as [x _ IH]; intros s Hx.
  rewrite pretty_N_go_step by exact Hx.
  assert (0 < x < 10 \/ 10 <= x)%N as [Hsmall|Hbig] by lia.
  - rewrite N.div_small, pretty_N_go_0 by lia.
    assert (x = 1 \/ x = 2 \/ x = 3 \/ x = 4 \/ x = 5 \/ x = 6 \/ x = 7 \/ x = 8 \/ x = 9)%N
      as Hcases by lia.
    rewrite N.mod_small by lia.
    repeat (destruct Hcases as [->|Hcases]; [discriminate|]). subst x. discriminate.
  - apply IH.
    + apply N.div_lt; lia.
    + apply N.div_str_pos. lia.
Qed.

Lemma fmt_02d_inj e1 e2 : fmt_02d e1 = fmt_02d e2 -> e1 = e2.
Proof.
  assert (Hbig : forall e t, (10 <= e)%nat -> pretty e <> String "0" t).
  { intros e t He. unfold pretty, pretty_nat, pretty, pretty_N.
    destruct (decide (N.of_nat e = 0%N)); [lia|].
    apply pretty_N_go_no_leading_zero. lia. }
  unfold fmt_02d.
  destruct (Nat.ltb_spec e1 10) as [H1|H1], (Nat.ltb_spec e2 10) as [H2|H2];
    rewrite ?append_cons; intros H.
  - injection H as H. exact (pretty_nat_inj _ _ H).
  - symmetry in H. destruct (Hbig _ _ H2 H).
  - destruct (Hbig _ _ H1 H).
  - exact (pretty_nat_inj _ _ H).
Qed.

(** X7: different epochs have different checkpoint paths, so no epoch
    overwrites the checkpoint file, or the entry in the checkpoint map, of
    another one. *)
Theorem model_path_inj (e1 e2 : nat) : model_path e1 = model_path e2 -> e1 = e2.
Proof.
  unfold model_path. intros H.
  apply append_inv_head, append_inv_tail in H. apply fmt_02d_inj, H.
Qed.

Lemma model_path_inj_witness :
  model_path 7 = model_path (3 + 4) /\ 7%nat = (3 + 4)%nat.
Proof.
  assert (H : model_path 7 = model_path (3 + 4)) by reflexivity.
  split; [exact H | exact (model_path_inj 7 (3 + 4) H)].
Defined.

(** ** Stage A: which rows survive, and when it fails *)

Lemma traverse_Raise {A B} (f : A -> pyresult B) l e :
  traverse f l = Raise e -> exists a, a ∈ l /\ f a = Raise e.
Proof.
  induction l as [|a l IH]; [discriminate|]. cbn [traverse].
  destruct (f a) as [b|e'] eqn:Ha.
  - destruct (traverse f l) as [bs|e''] eqn:Hl; [discriminate|].
    intros [= ->]. destruct (IH eq_refl) as (a' & Hin & Ha').
    exists a'. split; [right; exact Hin | exact Ha'].
  - intros [= ->]. exists a. split; [left | exact Ha].
Qed.


Lemma resenv_key_Ok row : variant row <> "" -> exists key, resenv_key row = Ok key.
Proof.
  unfold resenv_key. destruct (variant row) as [|c s]; [congruence|]. eauto.
Qed.

Lemma resenv_key_Raise row e : resenv_key row = Raise e -> variant row = "" /\ e = IndexError.
Proof.
  unfold resenv_key. destruct (variant row) as [|c s]; [|discriminate].
  intros [= <-]. auto.
Qed.

Lemma str_last_Ok s : s <> "" -> exists c, str_last s = Ok c.
Proof.
  unfold str_last. destruct s as [|c s]; [congruence|]. intros _.
  destruct (last (chars (String c s))) as [c'|] eqn:E; [eauto|].
  apply last_None in E. discriminate.
Qed.

Lemma one_to_index_Raise c e : one_to_index c = Raise e -> e = KeyError.
Proof. unfold one_to_index. destruct (index_of c (chars aa1)); congruence. Qed.

Lemma match_nonempty {A B} (l : list A) (x y : B) :
  l <> [] -> match l with [] => x | _ :: _ => y end = y.
Proof. destruct l; [congruence | reflexivity]. Qed.

Section StageASurvivors.
Context {ResidueEnvironment : Type}.
Variable resenv_datasets_look_up : gmap string (gmap string ResidueEnvironment).
Variable ddg_data_key : string.

Abbreviation matched := (fun (row : ddg_row) (e : option ResidueEnvironment) =>
  exists key, resenv_key row = Ok key /\
              e = match_resenv resenv_datasets_look_up ddg_data_key key).
Abbreviation keeps := (fun row : ddg_row =>
  survives resenv_datasets_look_up ddg_data_key row = true).

(** The rows [dropna] keeps are the surviving rows, in their order, each
    with the environment its key is mapped to. *)
Lemma dropna_survivors df resenvs :
  Forall2 matched df resenvs ->
  (dropna (zip df resenvs)).*1 = filter keeps df /\
  Forall (fun k : ddg_row * ResidueEnvironment =>
            exists key, resenv_key k.1 = Ok key /\
              match_resenv resenv_datasets_look_up ddg_data_key key = Some k.2)
         (dropna (zip df resenvs)).
Proof.
  induction 1 as [|row e df resenvs (key & Hk & He) Hm [IH1 IH2]]; [split; [reflexivity|constructor]|].
  assert (Hmiss : lookup_miss resenv_datasets_look_up ddg_data_key row
                  = match e with Some _ => false | None => true end).
  { unfold lookup_miss. rewrite Hk, <- He. reflexivity. }
  assert (Hsurv : survives resenv_datasets_look_up ddg_data_key row
                  = forallb (fun c => negb (isna c)) (other_columns row)
                    && match e with Some _ => true | None => false end).
  { unfold survives. rewrite Hmiss. destruct e; reflexivity. }
  rewrite filter_cons.
  change (zip (row :: df) (e :: resenvs)) with ((row, e) :: zip df resenvs).
  destruct (forallb (fun c => negb (isna c)) (other_columns row)) eqn:Hclean.
  - destruct e as [env|].
    + rewrite dropna_cons_kept by exact Hclean.
      case_decide as Hd; [|rewrite Hsurv in Hd; simpl in Hd; congruence].
      split; [rewrite fmap_cons, IH1; reflexivity|].
      constructor; [|exact IH2]. exists key. split; [exact Hk | symmetry; exact He].
    + rewrite dropna_cons_miss.
      case_decide as Hd; [rewrite Hsurv in Hd; simpl in Hd; congruence|]. auto.
  - rewrite dropna_cons_missing_cell by exact Hclean.
    case_decide as Hd; [rewrite Hsurv in Hd; simpl in Hd; congruence|]. auto.
Qed.

Lemma zip_with_matched_Forall2 (Pw Pm : ddg_row * ResidueEnvironment -> nat -> Prop)
    kept wt_idxs mt_idxs :
  Forall2 Pw kept wt_idxs -> Forall2 Pm kept mt_idxs ->
  Forall2 (fun k r => m_row r = k.1 /\ resenv r = k.2 /\ Pw k (wt_idx r) /\ Pm k (mt_idx r))
          kept
          (zip_with (fun '(row, e) '(wt, mt) => MatchedRow row e wt mt)
                    kept (zip wt_idxs mt_idxs)).
Proof.
  intros Hw. revert mt_idxs. induction Hw as [|[row e] w kept ws Hw0 Hw IH]; intros ms Hm.
  - constructor.
  - inversion Hm as [|k m kept' ms' Hm0 Hm' E1 E2]; subst.
    simpl. constructor; [auto | apply IH, Hm'].
Qed.

Lemma stage_a_rows df out :
  populate_df_with_resenvs resenv_datasets_look_up ddg_data_key df = Ok out ->
  exists resenvs,
    Forall2 matched df resenvs /\
    Forall2 (fun (k : ddg_row * ResidueEnvironment) r =>
               m_row r = k.1 /\ resenv r = k.2 /\
               (exists c, str_first (variant k.1) = Ok c /\ one_to_index c = Ok (wt_idx r)) /\
               (exists c, str_last (variant k.1) = Ok c /\ one_to_index c = Ok (mt_idx r)))
            (dropna (zip df resenvs)) out.
Proof.
  intros H. apply populate_df_with_resenvs_inv in H
    as (resenvs & wt_idxs & mt_idxs & Hmatch & Hw & Hm & ->).
  exists resenvs. split; [exact Hmatch|].
  apply (zip_with_matched_Forall2 _ _ _ _ _ Hw Hm).
Qed.
End StageASurvivors.

(** X8: when stage A returns for a data set, its rows are exactly the rows
    of the input table that have no missing cell and whose lookup hits, in
    their original order; each carries the environment stored under its
    key, and as [wt_idx] and [mt_idx] the indices (in [[0, 19]]) of the
    first and the last letter of its variant. *)
Theorem stage_a_survivors {ResidueEnvironment : Type}
    (resenv_datasets_look_up : gmap string (gmap string ResidueEnvironment))
    (ddg_data_key : string) (df : list ddg_row) (out : list matched_row) :
  populate_df_with_resenvs resenv_datasets_look_up ddg_data_key df = Ok out ->
  m_row <$> out
    = filter (fun row => survives resenv_datasets_look_up ddg_data_key row = true) df /\
  Forall (fun r =>
            (exists key, resenv_key (m_row r) = Ok key /\
               match_resenv resenv_datasets_look_up ddg_data_key key = Some (resenv r)) /\
            (exists c, str_first (variant (m_row r)) = Ok c /\
                       one_to_index c = Ok (wt_idx r)) /\
            (exists c, str_last (variant (m_row r)) = Ok c /\
                       one_to_index c = Ok (mt_idx r)) /\
            (wt_idx r < 20)%nat /\ (mt_idx r < 20)%nat) out.
Proof.
  intros H. destruct (stage_a_rows _ _ _ _ H) as (resenvs & Hmatch & Hrows).
  destruct (dropna_survivors _ _ _ _ Hmatch) as [Hkept Henv].
  rewrite <- Hkept. clear Hkept H Hmatch.
  induction Hrows as [|k r kept out (Hrow & He & Hw & Hm) Hrows IH].
  - split; [reflexivity | constructor].
  - apply Forall_cons in Henv as [Hk Henv]. destruct (IH Henv) as [IH1 IH2].
    split; [rewrite !fmap_cons, Hrow, IH1; reflexivity|].
    constructor; [|exact IH2].
    rewrite Hrow, He. split; [exact Hk|]. split; [exact Hw|]. split; [exact Hm|].
    destruct Hw as (c & _ & Hc), Hm as (c' & _ & Hc').
    split; eapply one_to_index_range; eassumption.
Qed.

(** Four rows of "dms": a hit, a miss, a hit without a measured value, and
    a hit; the first and the last one are left, in that order. *)
Lemma stage_a_survivors_witness :
  let look_up : gmap string (gmap string nat) :=
    {[ "dms" := {[ "1ABCA_123A" := 5%nat; "1ABCA_7K" := 6%nat ]} ]} in
  let row1 := DdgRow "1ABC" "A" "A123G" [CNum (Fin 1)] in
  let row2 := DdgRow "1ABC" "A" "A124G" [CNum (Fin 2)] in
  let row3 := DdgRow "1ABC" "A" "A123V" [CNum NaN] in
  let row4 := DdgRow "1ABC" "A" "K7Y" [CNum (Fin 3)] in
  let out := [MatchedRow row1 5%nat 0 5; MatchedRow row4 6%nat 8 19] in
  populate_df_with_resenvs look_up "dms" [row1; row2; row3; row4] = Ok out /\
  m_row <$> out
    = filter (fun row => survives look_up "dms" row = true) [row1; row2; row3; row4].
Proof.
  intros look_up row1 row2 row3 row4 out.
  assert (H : populate_df_with_resenvs look_up "dms" [row1; row2; row3; row4] = Ok out)
    by reflexivity.
  split; [exact H|].
  exact (proj1 (stage_a_survivors look_up "dms" _ _ H)).
Defined.

Section StageAOutcome.
Context {ResidueEnvironment : Type}.
Variable resenv_datasets_look_up : gmap string (gmap string ResidueEnvironment).
Variable ddg_data_key : string.

Abbreviation keeps := (fun row : ddg_row =>
  survives resenv_datasets_look_up ddg_data_key row = true).

(** The four ways stage A can end on a data set. *)
Lemma stage_a_outcome df :
  ((exists row, row ∈ df /\ variant row = "") /\
   populate_df_with_resenvs resenv_datasets_look_up ddg_data_key df = Raise IndexError) \/
  ((forall row, row ∈ df -> variant row <> "") /\
   (forall row, row ∈ df -> ~ keeps row) /\
   populate_df_with_resenvs resenv_datasets_look_up ddg_data_key df = Raise ValueError) \/
  ((forall row, row ∈ df -> variant row <> "") /\
   (exists row, row ∈ df /\ keeps row) /\
   (exists row, row ∈ df /\ keeps row /\ known_letters row = false) /\
   populate_df_with_resenvs resenv_datasets_look_up ddg_data_key df = Raise KeyError) \/
  ((forall row, row ∈ df -> variant row <> "") /\
   (exists row, row ∈ df /\ keeps row) /\
   (forall row, row ∈ df -> keeps row -> known_letters row = true) /\
   exists out, populate_df_with_resenvs resenv_datasets_look_up ddg_data_key df = Ok out).
Proof.
  unfold populate_df_with_resenvs.
  destruct (traverse _ df) as [resenvs|e] eqn:H1.
  2:{ left. apply traverse_Raise in H1 as (row & Hin & Hrow).
      destruct (resenv_key row) as [key|e'] eqn:Hk; [discriminate|].
      apply resenv_key_Raise in Hk as [Hv ->]. simpl in Hrow. injection Hrow as <-.
      split; [eauto | reflexivity]. }
  right. rewrite bind_Ok_l. apply traverse_Forall2 in H1.
  assert (Hne : forall row, row ∈ df -> variant row <> "").
  { intros row Hin Hv. apply list_elem_of_lookup in Hin as [i Hi].
    destruct (Forall2_lookup_l _ _ _ _ _ H1 Hi) as (oe & _ & Hrow).
    unfold resenv_key in Hrow. rewrite Hv in Hrow. discriminate. }
  assert (Hmatch : Forall2 (fun row e => exists key, resenv_key row = Ok key /\
                     e = match_resenv resenv_datasets_look_up ddg_data_key key) df resenvs).
  { eapply Forall2_impl; [exact H1|]. intros row e Hr. simpl in Hr.
    apply bind_Ok in Hr as (key & Hk & Hr). injection Hr as <-. eauto. }
  destruct (dropna_survivors _ _ _ _ Hmatch) as [Hkept _].
  cbv zeta. set (kept := dropna (zip df resenvs)) in *.
  assert (Hin_kept : forall k, k ∈ kept -> k.1 ∈ df /\ keeps k.1).
  { intros k Hk. apply (list_elem_of_fmap_2 fst) in Hk. rewrite Hkept in Hk.
    apply list_elem_of_filter in Hk. tauto. }
  assert (Hkept_in : forall row, row ∈ df -> keeps row -> exists k, k ∈ kept /\ k.1 = row).
  { intros row Hin Hs.
    assert (Hf : row ∈ kept.*1) by (rewrite Hkept; apply list_elem_of_filter; auto).
    apply list_elem_of_fmap in Hf as (k & -> & Hk). eauto. }
  assert (Hcase : kept = [] \/ exists k0, k0 ∈ kept).
  { destruct kept as [|k0 kept0]; [left; reflexivity | right; exists k0; left]. }
  destruct Hcase as [Hnil|[k0 Hk0]].
  { left. split; [exact Hne|]. rewrite Hnil. split; [|reflexivity].
    intros row Hin Hs. destruct (Hkept_in row Hin Hs) as (k & Hk & _).
    rewrite Hnil in Hk. inversion Hk. }
  right.
  assert (Hsome : exists row, row ∈ df /\ keeps row).
  { exists k0.1. apply Hin_kept, Hk0. }
  rewrite (match_nonempty kept) by (intros Hnil; rewrite Hnil in Hk0; inversion Hk0).
  assert (Hkey : forall (k : ddg_row * ResidueEnvironment) e (g : string -> pyresult ascii),
             (c ← g (variant k.1); one_to_index c) = Raise e ->
             (exists c, g (variant k.1) = Ok c) -> e = KeyError).
  { intros k e g Hr [c Hc]. rewrite Hc in Hr. exact (one_to_index_Raise _ _ Hr). }
  destruct (traverse (fun '(row, _) => c ← str_first (variant row); one_to_index c) kept)
    as [wt_idxs|e] eqn:Hw.
  2:{ left. apply traverse_Raise in Hw as ([row env] & Hk & Hr).
      destruct (Hin_kept _ Hk) as [Hin Hs]. simpl in Hin, Hs. cbv beta iota in Hr.
      assert (e = KeyError) as ->.
      { apply (Hkey (row, env) e str_first Hr). simpl.
        destruct (variant row) eqn:Hv; [destruct (Hne _ Hin Hv) | eauto]. }
      split; [exact Hne|]. split; [exact Hsome|]. split; [|reflexivity].
      exists row. split; [exact Hin|]. split; [exact Hs|].
      unfold known_letters. rewrite Hr. reflexivity. }
  destruct (traverse (fun '(row, _) => c ← str_last (variant row); one_to_index c) kept)
    as [mt_idxs|e] eqn:Hm.
  2:{ left. apply traverse_Raise in Hm as ([row env] & Hk & Hr).
      destruct (Hin_kept _ Hk) as [Hin Hs]. simpl in Hin, Hs. cbv beta iota in Hr.
      assert (e = KeyError) as ->.
      { apply (Hkey (row, env) e str_last Hr). simpl.
        apply str_last_Ok, Hne, Hin. }
      split; [exact Hne|]. split; [exact Hsome|]. split; [|reflexivity].
      exists row. split; [exact Hin|]. split; [exact Hs|].
      unfold known_letters. rewrite Hr.
      destruct (str_first (variant row) ≫= _); reflexivity. }
  right. split; [exact Hne|]. split; [exact Hsome|]. split; [|eexists; reflexivity].
  intros row Hin Hs. destruct (Hkept_in row Hin Hs) as ([row' env] & Hk & <-).
  apply traverse_Forall2 in Hw, Hm.
  apply list_elem_of_lookup in Hk as [i Hi].
  destruct (Forall2_lookup_l _ _ _ _ _ Hw Hi) as (w & _ & Hwr).
  destruct (Forall2_lookup_l _ _ _ _ _ Hm Hi) as (m & _ & Hmr).
  unfold known_letters. simpl in *. rewrite Hwr, Hmr. reflexivity.
Qed.
End StageAOutcome.

(** X9: stage A fails with an index error on a data set exactly when some
    row of the table has an empty variant string (the error is raised
    while the keys are built, before any row is dropped). *)
Theorem stage_a_index_error_iff_empty_variant {ResidueEnvironment : Type}
    (resenv_datasets_look_up : gmap string (gmap string ResidueEnvironment))
    (ddg_data_key : string) (df : list ddg_row) :
  populate_df_with_resenvs resenv_datasets_look_up ddg_data_key df = Raise IndexError <->
  exists row, row ∈ df /\ variant row = "".
Proof.
  destruct (stage_a_outcome resenv_datasets_look_up ddg_data_key df)
    as [[Hex Hres]|[(Hne & _ & Hres)|[(Hne & _ & _ & Hres)|(Hne & _ & _ & out & Hres)]]];
    rewrite Hres.
  - split; auto.
  - split; [discriminate|]. intros (row & Hin & Hv). destruct (Hne row Hin Hv).
  - split; [discriminate|]. intros (row & Hin & Hv). destruct (Hne row Hin Hv).
  - split; [discriminate|]. intros (row & Hin & Hv). destruct (Hne row Hin Hv).
Qed.

(** X10: on a table without empty variants, stage A ends in one of three
    ways.  It fails with a value error exactly when no row survives (every
    row has a missing cell or misses the lookup: the frame is empty when
    [wt_idx] is assigned); it fails with a key error exactly when a
    surviving row has a first or last variant letter outside the 20-letter
    alphabet; and it returns exactly when some row survives and the
    letters of all surviving rows are known.  The letters of the rows that
    are dropped are never looked at. *)
Theorem stage_a_key_error_iff_unknown_letter {ResidueEnvironment : Type}
    (resenv_datasets_look_up : gmap string (gmap string ResidueEnvironment))
    (ddg_data_key : string) (df : list ddg_row) :
  (forall row, row ∈ df -> variant row <> "") ->
  (populate_df_with_resenvs resenv_datasets_look_up ddg_data_key df = Raise ValueError <->
   forall row, row ∈ df ->
     survives resenv_datasets_look_up ddg_data_key row = false) /\
  (populate_df_with_resenvs resenv_datasets_look_up ddg_data_key df = Raise KeyError <->
   exists row, row ∈ df /\
     survives resenv_datasets_look_up ddg_data_key row = true /\
     known_letters row = false) /\
  ((exists row, row ∈ df /\
      survives resenv_datasets_look_up ddg_data_key row = true) /\
   (forall row, row ∈ df ->
      survives resenv_datasets_look_up ddg_data_key row = true ->
      known_letters row = true) <->
   exists out, populate_df_with_resenvs resenv_datasets_look_up ddg_data_key df = Ok out).
Proof.
  intros Hne.
  destruct (stage_a_outcome resenv_datasets_look_up ddg_data_key df)
    as [[(row & Hin & Hv) _]
       |[(_ & Hnone & Hres)
        |[(_ & Hsome & Hbad & Hres)|(_ & Hsome & Hgood & out & Hres)]]].
  - destruct (Hne row Hin Hv).
  - rewrite Hres. split; [|split].
    + split; [|reflexivity]. intros _ row Hin. apply not_true_is_false, Hnone, Hin.
    + split; [discriminate|]. intros (row & Hin & Hs & _). destruct (Hnone row Hin Hs).
    + split; [|intros [out H]; discriminate].
      intros [(row & Hin & Hs) _]. destruct (Hnone row Hin Hs).
  - rewrite Hres. split; [|split].
    + split; [discriminate|]. intros Hall. destruct Hsome as (row & Hin & Hs).
      rewrite (Hall row Hin) in Hs. discriminate.
    + split; auto.
    + split; [|intros [out H]; discriminate].
      intros [_ Hgood]. destruct Hbad as (row & Hin & Hs & Hk).
      rewrite (Hgood row Hin Hs) in Hk. discriminate.
  - rewrite Hres. split; [|split].
    + split; [discriminate|]. intros Hall. destruct Hsome as (row & Hin & Hs).
      rewrite (Hall row Hin) in Hs. discriminate.
    + split; [discriminate|]. intros (row & Hin & Hs & Hk).
      rewrite (Hgood row Hin Hs) in Hk. discriminate.
    + split; eauto.
Qed.

(** Two rows of "dms", both missing the lookup, the second with the
    unknown wild-type letter X: no row survives, and stage A fails with a
    value error, not a key error. *)
Lemma stage_a_key_error_iff_unknown_letter_witness :
  let look_up : gmap string (gmap string nat) :=
    {[ "dms" := {[ "1ABCA_123A" := 5%nat ]} ]} in
  let row1 := DdgRow "1ABC" "A" "A124G" [] in
  let row2 := DdgRow "1ABC" "A" "X9G" [] in
  known_letters row2 = false /\
  populate_df_with_resenvs look_up "dms" [row1; row2] = Raise ValueError.
Proof.
  intros look_up row1 row2. split; [reflexivity|].
  assert (Hne : forall row, row ∈ [row1; row2] -> variant row <> "").
  { intros row Hin.
    apply elem_of_cons in Hin as [->|Hin]; [discriminate|].
    apply list_elem_of_singleton in Hin as ->. discriminate. }
  apply (proj1 (stage_a_key_error_iff_unknown_letter look_up "dms" [row1; row2] Hne)).
  intros row Hin.
  apply elem_of_cons in Hin as [->|Hin]; [reflexivity|].
  apply list_elem_of_singleton in Hin as ->. reflexivity.
Defined.

(** X11: on a table of N rows none of which has a missing cell, K of which
    miss the lookup, stage A, when it returns, leaves exactly N - K rows. *)
Theorem stage_a_row_count_without_missing_cells {ResidueEnvironment : Type}
    (resenv_datasets_look_up : gmap string (gmap string ResidueEnvironment))
    (ddg_data_key : string) (df : list ddg_row) (out : list matched_row) :
  Forall (fun row => forallb (fun c => negb (isna c)) (other_columns row) = true) df ->
  populate_df_with_resenvs resenv_datasets_look_up ddg_data_key df = Ok out ->
  length out =
    (length df -
     length (filter (fun row => lookup_miss resenv_datasets_look_up ddg_data_key row = true)
                    df))%nat.
Proof. apply populate_df_with_resenvs_count. Qed.

Lemma stage_a_row_count_without_missing_cells_witness :
  let look_up : gmap string (gmap string nat) :=
    {[ "dms" := {[ "1ABCA_123A" := 5%nat ]} ]} in
  let df := [DdgRow "1ABC" "A" "A123G" [CNum (Fin 1)];
             DdgRow "1ABC" "A" "A124G" [CNum (Fin 2)];
             DdgRow "1ABC" "A" "A123V" [CStr "note"]] in
  exists out,
    populate_df_with_resenvs look_up "dms" df = Ok out /\
    length out = (3 - 1)%nat.
Proof.
  intros look_up df.
  assert (Hclean : Forall (fun row =>
            forallb (fun c => negb (isna c)) (other_columns row) = true) df)
    by (repeat constructor).
  eexists. split; [reflexivity|].
  exact (stage_a_row_count_without_missing_cells look_up "dms" df _ Hclean eq_refl).
Defined.

(** X12: all data-set names that contain "symmetric" are resolved against
    one and the same data set, and an entry the lookup has under such a
    name itself (other than "symmetric") is never consulted. *)
Theorem symmetric_names_share_one_lookup {ResidueEnvironment : Type}
    (resenv_datasets_look_up : gmap string (gmap string ResidueEnvironment))
    (name1 name2 resenv_key : string) (own : gmap string ResidueEnvironment) :
  occurs_in "symmetric" name1 -> occurs_in "symmetric" name2 ->
  match_resenv resenv_datasets_look_up name1 resenv_key
  = match_resenv resenv_datasets_look_up name2 resenv_key /\
  (name1 <> "symmetric" ->
   match_resenv (<[name1 := own]> resenv_datasets_look_up) name1 resenv_key
   = match_resenv resenv_datasets_look_up name1 resenv_key).
Proof.
  intros H1 H2. apply str_in_spec in H1, H2.
  unfold match_resenv, ddg_data_key_adhoc_fix. rewrite H1, H2.
  split; [reflexivity|]. intros Hne. rewrite lookup_insert_ne by exact Hne. reflexivity.
Qed.

Lemma symmetric_names_share_one_lookup_witness :
  let look_up : gmap string (gmap string nat) :=
    {[ "symmetric" := {[ "1ABCA_123A" := 7%nat ]} ]} in
  occurs_in "symmetric" "symmetric_direct" /\
  occurs_in "symmetric" "my_symmetric_inverse" /\
  match_resenv look_up "symmetric_direct" "1ABCA_123A"
  = match_resenv look_up "my_symmetric_inverse" "1ABCA_123A" /\
  ("symmetric_direct" <> "symmetric" ->
   match_resenv (<["symmetric_direct" := {[ "1ABCA_123A" := 8%nat ]}]> look_up)
                "symmetric_direct" "1ABCA_123A"
   = match_resenv look_up "symmetric_direct" "1ABCA_123A").
Proof.
  intros look_up.
  assert (H1 : occurs_in "symmetric" "symmetric_direct")
    by (exists "", "_direct"; reflexivity).
  assert (H2 : occurs_in "symmetric" "my_symmetric_inverse")
    by (exists "my_", "_inverse"; reflexivity).
  split; [exact H1|]. split; [exact H2|].
  exact (symmetric_names_share_one_lookup look_up _ _ "1ABCA_123A"
           {[ "1ABCA_123A" := 8%nat ]} H1 H2).
Defined.

(** X13: for rows of one structure and chain, two variants have the same
    lookup key exactly when they agree on position and wild-type letter:
    the mutant letter plays no part in the key, and different sites never
    share one. *)
Theorem resenv_key_identifies_site (pdb chain : string)
    (wt1 wt2 : ascii) (position1 position2 : string) (mt1 mt2 : ascii)
    (others1 others2 : list cell) :
  resenv_key (DdgRow pdb chain (String wt1 (position1 +:+ String mt1 "")) others1)
  = resenv_key (DdgRow pdb chain (String wt2 (position2 +:+ String mt2 "")) others2)
  <-> position1 = position2 /\ wt1 = wt2.
Proof.
  unfold resenv_key. cbn [variant pdbid chainid str_first]. rewrite !str_slice_middle.
  rewrite !bind_Ok_l. split.
  - intros [= H]. apply append_inv_head, append_inv_head in H.
    rewrite !append_cons in H. injection H as H.
    apply (f_equal chars) in H. rewrite !chars_app in H. simpl in H.
    apply app_inj_tail in H as [Hp Hw]. split; [apply chars_inj, Hp | exact Hw].
  - intros [-> ->]. reflexivity.
Qed.

(** ** Stage B: after stage A, and its batches *)





(** Without drop-last a loader hands out every item, in order. *)
Lemma DataLoader_keep_last_concat {A} (dataset : list A) B dl :
  DataLoader dataset B false = Ok dl -> concat dl = dataset.
Proof.
  unfold DataLoader. destruct (decide (B = 0%nat)) as [|HB]; [discriminate|].
  set (k := (length dataset / B)%nat).
  destruct (drop (k * B) dataset) as [|x rest] eqn:Hrest; intros [= <-].
  - rewrite concat_full_batches.
    rewrite <- (take_drop (k * B) dataset) at 2. rewrite Hrest, app_nil_r. reflexivity.
  - rewrite concat_app, concat_full_batches. simpl. rewrite app_nil_r, <- Hrest.
    apply take_drop.
Qed.

Lemma np_vstack_same_width (arrays : list (list (list float))) (w : nat) :
  arrays <> [] ->
  Forall (fun r => length r = w) (concat arrays) ->
  np_vstack arrays = Ok (concat arrays).
Proof.
  intros Hne Hw. unfold np_vstack. destruct arrays as [|a arrays]; [congruence|].
  destruct (concat (a :: arrays)) as [|row rows]; [reflexivity|].
  apply Forall_cons in Hw as [Hrow Hrows].
  replace (forallb _ rows) with true; [reflexivity|].
  symmetry. apply forallb_forall. intros r Hr. apply Nat.eqb_eq.
  rewrite Forall_forall in Hrows. rewrite Hrow. apply Hrows, list_elem_of_In, Hr.
Qed.

Lemma traverse_score_row_of {ResidueEnvironment : Type}
    (infer_nlls : ResidueEnvironment -> list float) (pdb_nlfs : list float)
    (df : list matched_row) :
  traverse (fun '(row, nlls) => score_row_of pdb_nlfs row nlls)
           (zip df (infer_nlls <$> (resenv <$> df)))
  = traverse (score_row infer_nlls pdb_nlfs) df.
Proof.
  induction df as [|row df IH]; [reflexivity|].
  rewrite !fmap_cons. cbn [zip zip_with traverse]. fold (zip df (infer_nlls <$> (resenv <$> df))).
  rewrite IH. reflexivity.
Qed.

(** X15: the batch size of stage B has no influence on its result: with
    the last, shorter batch kept, every matched row gets the prediction of
    its own environment, whatever the (positive) batch size, as long as the
    network returns vectors of one width.  A batch size of 0 is refused by
    the loader. *)
Theorem stage_b_batch_size_irrelevant {ResidueEnvironment : Type}
    (infer_nlls : ResidueEnvironment -> list float) (pdb_nlfs : list float)
    (BATCH_SIZE : nat) (df : list matched_row) :
  (forall e e', length (infer_nlls e) = length (infer_nlls e')) ->
  ((0 < BATCH_SIZE)%nat ->
   populate_df_with_nlls_and_nlfs_batched infer_nlls pdb_nlfs BATCH_SIZE df
   = populate_df_with_nlls_and_nlfs infer_nlls pdb_nlfs df) /\
  populate_df_with_nlls_and_nlfs_batched infer_nlls pdb_nlfs 0 df = Raise ValueError.
Proof.
  intros Hwidth. split; [|reflexivity]. intros HB.
  unfold populate_df_with_nlls_and_nlfs_batched. cbv zeta.
  destruct (DataLoader (resenv <$> df) BATCH_SIZE false) as [dl|e] eqn:Hdl.
  2:{ unfold DataLoader in Hdl. destruct (decide (BATCH_SIZE = 0%nat)); [lia|].
      destruct (drop _ _); discriminate. }
  rewrite bind_Ok_l.
  pose proof (DataLoader_keep_last_concat _ _ _ Hdl) as Hcat.
  destruct df as [|row df].
  - assert (dl = []) as ->.
    { unfold DataLoader in Hdl. destruct (decide (BATCH_SIZE = 0%nat)); [lia|].
      simpl in Hdl. rewrite Nat.Div0.div_0_l in Hdl. simpl in Hdl. congruence. }
    reflexivity.
  - assert (Hne : dl <> []) by (intros ->; discriminate).
    rewrite (np_vstack_same_width _ (length (infer_nlls (resenv row)))).
    + rewrite bind_Ok_l, concat_fmap_batches, Hcat.
      rewrite decide_True by (rewrite !length_fmap; reflexivity).
      apply traverse_score_row_of.
    + destruct dl; [congruence | discriminate].
    + rewrite concat_fmap_batches. apply Forall_fmap, Forall_forall.
      intros e _. apply Hwidth.
Qed.

(** Three matched rows in batches of two: a full batch and a shorter one. *)
Lemma stage_b_batch_size_irrelevant_witness :
  let infer := fun e : nat => [float_of_len e; 2.0%float] in
  let nlfs := [1.0%float; 3.0%float] in
  let df := [MatchedRow (DdgRow "1ABC" "A" "A1C" []) 4%nat 0 1;
             MatchedRow (DdgRow "1ABC" "A" "C2A" []) 5%nat 1 0;
             MatchedRow (DdgRow "1ABC" "A" "A3C" []) 6%nat 0 1] in
  (0 < 2)%nat /\
  populate_df_with_nlls_and_nlfs_batched infer nlfs 2 df
  = populate_df_with_nlls_and_nlfs infer nlfs df.
Proof.
  intros infer nlfs df.
  assert (H : (0 < 2)%nat) by lia.
  split; [exact H|].
  exact (proj1 (stage_b_batch_size_irrelevant infer nlfs 2 df
                  (fun e e' => eq_refl)) H).
Defined.

(** ** Train/validation split: sizes of the two groups *)

Lemma DataLoader_nil {A} (batch_size : nat) (drop_last : bool) (dl : list (list A)) :
  DataLoader [] batch_size drop_last = Ok dl -> dl = [].
Proof.
  unfold DataLoader. destruct (decide (batch_size = 0%nat)); [discriminate|].
  cbn [length]. rewrite Nat.Div0.div_0_l. simpl. congruence.
Qed.

(** X16: with [n = int(len(total) * fraction)] in binary64: when the list
    is empty, [n] is 0 (a short list, or a small fraction) or [n] is at
    most [-len(total)], the train group is empty and the function raises a
    value error when it builds the shuffling train loader.  Whenever the
    function returns, the train group has at least one file and at least
    one environment; and when [n] is at least [len(total)] (a fraction of
    1 or more) every file trains, the validation data set is empty and the
    validation loader yields no batch. *)
Theorem train_val_split_sizes {sample : Type} (environments : string -> list sample)
    (total : list string) (fraction : float) (BATCH_SIZE : nat) (n : Z) :
  py_int (PrimFloat.mul (float_of_len (length total)) fraction) = Ok n ->
  ((total = [] \/ n = 0 \/ n <= - Z.of_nat (length total)) ->
   _train_val_split environments total fraction BATCH_SIZE = Raise ValueError) /\
  (forall r,
      _train_val_split environments total fraction BATCH_SIZE = Ok r ->
      filenames_train r <> [] /\
      dataset_train r <> [] /\
      (Z.of_nat (length total) <= n ->
       filenames_train r = total /\ filenames_val r = [] /\
       dataset_val r = [] /\ dataloader_val r = [])).
Proof.
  intros Hn. destruct (py_slice_cut total n) as [Hpos Hneg]. split.
  - intros Hcase. apply (train_val_split_empty_train _ _ _ _ n Hn).
    assert (py_slice_to total n = []) as ->; [|reflexivity].
    destruct Hcase as [->|[->|Hle]].
    + rewrite py_slice_to_take. apply take_nil.
    + apply (proj1 (Hpos ltac:(lia))).
    + destruct (Z.eq_dec n 0) as [->|Hn0]; [apply (proj1 (Hpos ltac:(lia)))|].
      rewrite (proj1 (Hneg ltac:(lia))).
      replace (length total - Z.to_nat (- n))%nat with 0%nat by lia. reflexivity.
  - intros r H. apply train_val_split_inv in H as (n' & dl & Hn' & _ & Hne & Hdl & ->).
    assert (n' = n) as -> by congruence.
    cbn [filenames_train filenames_val dataset_train dataset_val dataloader_val].
    split; [intros He; apply Hne; rewrite He; reflexivity|]. split; [exact Hne|].
    intros Hge. destruct (Hpos ltac:(lia)) as [Ht Hv].
    rewrite Hv, drop_ge in Hdl |- * by lia. rewrite Ht, take_ge by lia.
    split; [reflexivity|]. split; [reflexivity|]. split; [reflexivity|].
    exact (DataLoader_nil _ _ _ Hdl).
Qed.

(** One structure file and a fraction of 0.9: [int(0.9)] is 0, nothing is
    left to train on, and the split raises. *)
Lemma train_val_split_sizes_witness :
  let environments := fun f : string => [f] in
  py_int (PrimFloat.mul (float_of_len (length ["1abc"])) 0.9%float) = Ok 0 /\
  _train_val_split environments ["1abc"] 0.9%float 2 = Raise ValueError.
Proof.
  intros environments.
  assert (Hn : py_int (PrimFloat.mul (float_of_len (length ["1abc"])) 0.9%float) = Ok 0)
    by (vm_compute; reflexivity).
  split; [exact Hn|].
  apply (proj1 (train_val_split_sizes environments ["1abc"] 0.9%float 2 0 Hn)).
  right. left. reflexivity.
Defined.

(** ** Evaluation loop: edges *)

Lemma foldl_fadd_NaN (l : list pyfloat) : foldl fadd NaN l = NaN.
Proof. induction l as [|x l IH]; [reflexivity|]. simpl. exact IH. Qed.

Lemma foldl_fadd_has_NaN (l : list pyfloat) acc : NaN ∈ l -> foldl fadd acc l = NaN.
Proof.
  revert acc. induction l as [|x l IH]; intros acc Hin; [inversion Hin|].
  apply elem_of_cons in Hin as [<-|Hin]; simpl.
  - destruct acc; apply foldl_fadd_NaN.
  - apply IH, Hin.
Qed.

Lemma np_mean_has_NaN (l : list pyfloat) : NaN ∈ l -> np_mean l = NaN.
Proof.
  intros Hin. destruct l as [|x l]; [inversion Hin|].
  unfold np_mean. rewrite (foldl_fadd_has_NaN _ _ Hin). reflexivity.
Qed.

Lemma eval_loop_loss {sample : Type} (label_true label_pred : sample -> nat)
    (loss_function : list sample -> pyfloat) dl acc loss :
  _eval_loop label_true label_pred loss_function dl = Ok (acc, loss) ->
  loss = np_mean (loss_function <$> dl).
Proof.
  unfold _eval_loop. cbv zeta. intros H.
  apply bind_Ok in H as (ft & _ & H). apply bind_Ok in H as (fp & _ & H).
  injection H as _ <-. reflexivity.
Qed.

(** X17: a validation set with fewer samples than the batch size yields no
    batch under drop-last; the evaluation loop then returns NaN for both
    accuracy and loss, and a training loop whose validation loss is that
    value in every epoch ends in a missing-key error. *)
Theorem eval_loop_short_validation_set {sample : Type}
    (label_true label_pred : sample -> nat) (loss_function : list sample -> pyfloat)
    (dataset : list sample) (BATCH_SIZE : nat) :
  (length dataset < BATCH_SIZE)%nat ->
  DataLoader dataset BATCH_SIZE true = Ok [] /\
  _eval_loop label_true label_pred loss_function [] = Ok (NaN, NaN) /\
  forall PATIENCE_CUTOFF EPOCHS,
    _train_loop (fun _ => NaN) PATIENCE_CUTOFF EPOCHS = Raise KeyError.
Proof.
  intros Hshort. split; [|split; [reflexivity|]].
  - unfold DataLoader. destruct (decide (BATCH_SIZE = 0%nat)); [lia|].
    rewrite Nat.div_small by exact Hshort. simpl. destruct dataset; reflexivity.
  - intros C E.
    destruct (train_loop_cases (fun _ => NaN) C E)
      as [(_ & Hres & _)|(b & _ & _ & _ & _ & Hb4 & _)]; [exact Hres | discriminate].
Qed.

Lemma eval_loop_short_validation_set_witness :
  (length [(0, 0); (1, 1); (2, 1)]%nat < 4)%nat /\
  DataLoader [(0, 0); (1, 1); (2, 1)]%nat 4 true = Ok [] /\
  _eval_loop fst snd (fun _ : list (nat * nat) => Fin 1) [] = Ok (NaN, NaN) /\
  forall PATIENCE_CUTOFF EPOCHS,
    _train_loop (fun _ => NaN) PATIENCE_CUTOFF EPOCHS = Raise KeyError.
Proof.
  assert (H : (length [(0, 0); (1, 1); (2, 1)]%nat < 4)%nat) by (simpl; lia).
  split; [exact H|].
  exact (eval_loop_short_validation_set fst snd (fun _ => Fin 1) _ 4 H).
Defined.

Lemma np_mean_bool_range (l : list bool) :
  l <> [] -> exists q, np_mean_bool l = Fin q /\ (0 <= q)%Q /\ (q <= 1)%Q.
Proof.
  intros Hne. destruct l as [|b l]; [congruence|]. unfold np_mean_bool.
  eexists. split; [reflexivity|].
  pose proof (length_filter (fun b : bool => b = true) (b :: l)) as Hle.
  assert (Hpos : (0 < length (b :: l))%nat) by (cbn [length]; lia).
  remember (length (filter (fun b : bool => b = true) (b :: l))) as c.
  remember (length (b :: l)) as n.
  assert (Hn : Z.pos (Pos.of_nat n) = Z.of_nat n).
  { rewrite <- (Nat2Pos.id n) at 2 by lia. symmetry. apply positive_nat_Z. }
  unfold Qle. cbn [Qnum Qden]. rewrite Hn. lia.
Qed.

(** X18: the accuracy the evaluation loop returns is NaN when no sample was
    evaluated, and otherwise a number between 0 and 1. *)
Theorem eval_loop_accuracy_range {sample : Type}
    (label_true label_pred : sample -> nat) (loss_function : list sample -> pyfloat)
    (dataloader_val : list (list sample)) (acc loss : pyfloat) :
  _eval_loop label_true label_pred loss_function dataloader_val = Ok (acc, loss) ->
  (total_flattened dataloader_val = 0%nat /\ acc = NaN) \/
  (total_flattened dataloader_val <> 0%nat /\
   exists q, acc = Fin q /\ (0 <= q)%Q /\ (q <= 1)%Q).
Proof.
  intros H. rewrite (eval_loop_accuracy _ _ _ _ _ _ H). unfold total_flattened.
  destruct (concat dataloader_val) as [|s l]; [left; split; reflexivity|].
  right. split; [discriminate|]. apply np_mean_bool_range. discriminate.
Qed.

Lemma eval_loop_accuracy_range_witness :
  let dl := [[(0, 0); (0, 1)]; [(1, 1); (2, 2)]]%nat in
  _eval_loop fst snd (fun _ => Fin 1) dl = Ok (Fin (3 # 4), Fin ((0 + 1 + 1) / inject_Z 2)) /\
  ((total_flattened dl = 0%nat /\ Fin (3 # 4) = NaN) \/
   (total_flattened dl <> 0%nat /\
    exists q, Fin (3 # 4) = Fin q /\ (0 <= q)%Q /\ (q <= 1)%Q)).
Proof.
  intros dl.
  assert (H : _eval_loop fst snd (fun _ => Fin 1) dl
              = Ok (Fin (3 # 4), Fin ((0 + 1 + 1) / inject_Z 2))) by reflexivity.
  split; [exact H|].
  exact (eval_loop_accuracy_range fst snd (fun _ => Fin 1) dl _ _ H).
Defined.

(** X19: nothing guards the validation loss against NaN: if the loss of a
    single batch is NaN, the loss the evaluation loop returns is NaN. *)
Theorem eval_loop_nan_batch_loss {sample : Type}
    (label_true label_pred : sample -> nat) (loss_function : list sample -> pyfloat)
    (dataloader_val : list (list sample)) (acc loss : pyfloat) (batch : list sample) :
  _eval_loop label_true label_pred loss_function dataloader_val = Ok (acc, loss) ->
  batch ∈ dataloader_val ->
  loss_function batch = NaN ->
  loss = NaN.
Proof.
  intros H Hin Hnan. rewrite (eval_loop_loss _ _ _ _ _ _ H).
  apply np_mean_has_NaN. rewrite <- Hnan. apply list_elem_of_fmap_2, Hin.
Qed.

Lemma eval_loop_nan_batch_loss_witness :
  let loss_function := fun b : list (nat * nat) =>
    match b with [(0, 0)] => NaN | _ => Fin 1 end%nat in
  let dl := [[(1, 1)]; [(0, 0)]; [(2, 3)]]%nat in
  _eval_loop fst snd loss_function dl = Ok (Fin (2 # 3), NaN) /\
  [(0, 0)]%nat ∈ dl /\ loss_function [(0, 0)]%nat = NaN /\ NaN = NaN.
Proof.
  intros loss_function dl.
  assert (H : _eval_loop fst snd loss_function dl = Ok (Fin (2 # 3), NaN)) by reflexivity.
  assert (Hin : [(0, 0)]%nat ∈ dl) by (right; left).
  assert (Hnan : loss_function [(0, 0)]%nat = NaN) by reflexivity.
  split; [exact H|]. split; [exact Hin|]. split; [exact Hnan|].
  exact (eval_loop_nan_batch_loss fst snd loss_function dl _ _ _ H Hin Hnan).
Defined.

(** X20: under drop-last, the samples after the last full batch play no
    part in validation: the loader yields the same batches as for the data
    set without them, which together are the samples before them. *)
Theorem validation_ignores_trailing_samples {sample : Type}
    (core tail : list sample) (BATCH_SIZE k : nat) :
  (0 < BATCH_SIZE)%nat ->
  length core = (k * BATCH_SIZE)%nat ->
  (length tail < BATCH_SIZE)%nat ->
  exists dl,
    DataLoader (core ++ tail) BATCH_SIZE true = Ok dl /\
    DataLoader core BATCH_SIZE true = Ok dl /\
    concat dl = core /\
    length dl = k.
Proof.
  intros HB Hcore Htail.
  exists ((fun i => take BATCH_SIZE (drop (i * BATCH_SIZE) core)) <$> seq 0 k).
  assert (Hdiv1 : (length (core ++ tail) / BATCH_SIZE = k)%nat).
  { rewrite length_app, Hcore, Nat.div_add_l by lia.
    rewrite (Nat.div_small (length tail)) by lia. lia. }
  assert (Hdiv2 : (length core / BATCH_SIZE = k)%nat).
  { rewrite Hcore. apply Nat.div_mul. lia. }
  split; [|split; [|split]].
  - unfold DataLoader. destruct (decide (BATCH_SIZE = 0%nat)); [lia|].
    rewrite Hdiv1.
    assert (Hfull : (fun i => take BATCH_SIZE (drop (i * BATCH_SIZE) (core ++ tail)))
                      <$> seq 0 k
                    = (fun i => take BATCH_SIZE (drop (i * BATCH_SIZE) core)) <$> seq 0 k).
    { apply list_fmap_ext. intros j i Hi.
      apply lookup_seq in Hi as [-> Hi]. simpl.
      rewrite drop_app_le by nia. rewrite take_app_le; [reflexivity|].
      rewrite length_drop. nia. }
    rewrite Hfull. destruct (drop (k * BATCH_SIZE) (core ++ tail)); reflexivity.
  - unfold DataLoader. destruct (decide (BATCH_SIZE = 0%nat)); [lia|].
    rewrite Hdiv2, drop_ge by lia. reflexivity.
  - rewrite concat_full_batches. apply take_ge. lia.
  - rewrite length_fmap, length_seq. reflexivity.
Qed.

(** Five samples in batches of two: the fifth one is left out. *)
Lemma validation_ignores_trailing_samples_witness :
  (0 < 2)%nat /\ length [10; 11; 12; 13]%nat = (2 * 2)%nat /\ (length [14%nat] < 2)%nat /\
  exists dl,
    DataLoader ([10; 11; 12; 13] ++ [14])%nat 2 true = Ok dl /\
    DataLoader [10; 11; 12; 13]%nat 2 true = Ok dl /\
    concat dl = [10; 11; 12; 13]%nat /\
    length dl = 2%nat.
Proof.
  assert (H1 : (0 < 2)%nat) by lia.
  assert (H2 : length [10; 11; 12; 13]%nat = (2 * 2)%nat) by reflexivity.
  assert (H3 : (length [14%nat] < 2)%nat) by (simpl; lia).
  split; [exact H1|]. split; [exact H2|]. split; [exact H3|].
  exact (validation_ignores_trailing_samples [10; 11; 12; 13]%nat [14%nat] 2 2 H1 H2 H3).
Defined.
